(** * copier_update: batch update of the dotfiles of many repositories

    A shallow embedding of [tools/copier_update.py].  The script is a
    sequence of calls to external programs (git, copier, pre-commit, gh),
    one HTTP query and a few file operations, wrapped in a loop over
    (repository, branch) pairs.  The pure helpers are plain functions on
    strings; the effectful part lives in a small monad that threads the
    world, may raise a Python exception, and records every external
    interaction in a trace. *)

From Stdlib Require Import String Ascii List ZArith NArith Lia Bool.
From stdpp Require Import base gmap strings.
From Equations Require Import Equations.
Import ListNotations.
Open Scope string_scope.

(** ** Python strings

    A [str] is modelled as a Rocq [string]; every [ascii] stands for the
    code point of the same number. *)
Module PyStr.

(** [str.isspace] on one character, for the code points below 256:
    TAB..CR, FS..US, SPACE, NEL and NBSP. *)
Definition is_space (c : ascii) : bool :=
  let n := N_of_ascii c in
  ((9 <=? n) && (n <=? 13) || (28 <=? n) && (n <=? 32)
   || (n =? 133) || (n =? 160))%N.

Definition is_empty (s : string) : bool :=
  match s with EmptyString => true | String _ _ => false end.

Fixpoint lstrip (s : string) : string :=
  match s with
  | EmptyString => EmptyString
  | String c s' => if is_space c then lstrip s' else s
  end.

Fixpoint rstrip (s : string) : string :=
  match s with
  | EmptyString => EmptyString
  | String c s' =>
      match rstrip s' with
      | EmptyString => if is_space c then EmptyString else String c EmptyString
      | t => String c t
      end
  end.

(** [s.strip()] *)
Definition strip (s : string) : string := rstrip (lstrip s).

(** [s.split(sep)] for a one-character separator: never the empty list,
    [n] separators give [n + 1] fields. *)
Fixpoint split (sep : ascii) (s : string) : list string :=
  match s with
  | EmptyString => [EmptyString]
  | String c s' =>
      if Ascii.eqb c sep then EmptyString :: split sep s'
      else match split sep s' with
           | field :: fields => String c field :: fields
           | [] => [String c EmptyString]
           end
  end.

Fixpoint starts_with (p s : string) : bool :=
  match p, s with
  | EmptyString, _ => true
  | String a p', String b s' => if Ascii.eqb a b then starts_with p' s' else false
  | String _ _, EmptyString => false
  end.

Fixpoint drop_chars (n : nat) (s : string) : string :=
  match n, s with
  | S k, String _ s' => drop_chars k s'
  | _, _ => s
  end.

Lemma drop_chars_length n s : String.length (drop_chars n s) <= String.length s.
Proof.
  revert s; induction n as [|n IH]; intros [|c s]; simpl; try lia.
  specialize (IH s). lia.
Qed.

(** The left-to-right scan of [str.replace] for a pattern that is not
    empty: at an occurrence of [old] emit [new] and resume behind the
    occurrence, otherwise copy one character. *)
Equations? replace_scan (old new s : string) : string by wf (String.length s) lt :=
  replace_scan old new EmptyString := EmptyString;
  replace_scan old new (String c s') with starts_with old (String c s') := {
    | true := new ++ replace_scan old new (drop_chars (String.length old - 1) s');
    | false := String c (replace_scan old new s') }.
Proof.
  pose proof (drop_chars_length (String.length old - 1) s'). simpl. lia.
Qed.

Fixpoint intersperse_after (new s : string) : string :=
  match s with
  | EmptyString => EmptyString
  | String c s' => String c (new ++ intersperse_after new s')
  end.

(** [s.replace(old, new)]: every occurrence, left to right, without
    overlap; an empty [old] matches before every character and at the end. *)
Definition replace (old new s : string) : string :=
  match old with
  | EmptyString => new ++ intersperse_after new s
  | String _ _ => replace_scan old new s
  end.

End PyStr.

(** ** Pure helpers of the script *)

Definition IGNORED_REJ_FILES : list string := ["oca_dependencies.txt.rej"].

Definition _make_update_dotfiles_branch (branch : string) : string :=
  branch ++ "-ocabot-update-dotfiles".

Definition _make_commit_msg (ci_skip : bool) : string :=
  let msg := "[IMP] update dotfiles" in
  if ci_skip then msg ++ " [ci skip]" else msg.

(** The two nested loops of [_iterate_repos_and_branches], over the list
    [all_repos] that the selector resolved to.  [continue] skips the entry. *)
Fixpoint iterate_branches (repo : string) (fields : list string)
  : list (string * string) :=
  match fields with
  | [] => []
  | branch :: rest =>
      let branch := PyStr.strip branch in
      if PyStr.is_empty branch then iterate_branches repo rest
      else (repo, branch) :: iterate_branches repo rest
  end.

Fixpoint iterate_repos (all_repos : list string) (branches : string)
  : list (string * string) :=
  match all_repos with
  | [] => []
  | repo :: rest =>
      let repo := PyStr.strip repo in
      if PyStr.is_empty repo then iterate_repos rest branches
      else iterate_branches repo (PyStr.split "," branches)
             ++ iterate_repos rest branches
  end.

(** The rewrite that [_fix_copier_answers] applies to the answers file. *)
Definition fix_answers_text (copier_answers : string) : string :=
  PyStr.replace "repo_description: null"
    ("repo_description: " ++ String (ascii_of_nat 34) (String (ascii_of_nat 34) EmptyString))
    copier_answers.

(** What the specification calls the trimmed, non-empty comma-split. *)
Definition trimmed_nonempty_split (s : string) : list string :=
  List.filter (fun x => negb (PyStr.is_empty x)) (List.map PyStr.strip (PyStr.split "," s)).

(** ** Exceptions, events and the world *)

(** The exceptions that can travel through [main]. *)
Inductive exn :=
| BranchNotFoundError
| CalledProcessError (returncode : Z) (cmd : list string)
| HTTPError (status : Z)
| FileNotFoundError (path : string)
| OtherError (what : string).

Inductive result (A : Type) :=
| Ok (a : A)
| Raise (e : exn).
Arguments Ok {A} a.
Arguments Raise {A} e.

(** One entry of the list that the pull-request query returns, and the
    HTTP response that carries the list. *)
Record pull := { pr_state : string; pr_number : Z }.
Record response := { status_code : Z; json : list pull }.

(** What the script does to the outside, in order, with the answer it
    got where there is one. *)
Inductive event :=
| Run (argv : list string) (returncode : Z)
| Print (line : string)
| Get (url : string) (answer : result response)
| WriteText (path text : string)
| ListRepositories
| CloneEnter (org repo branch protocol : string)
| CloneExit.

(** The working directory as a map from path to text, next to whatever
    else the collaborators keep ([X]: remotes, the index, the network). *)
Record world (X : Type) := World { files : gmap string string; ext : X }.
Arguments World {X} files ext.
Arguments files {X} w.
Arguments ext {X} w.

(** The external collaborators.  [subprocess] runs a command line to its
    exit code; [requests_get] is the HTTP GET; [get_repositories],
    [clone_enter], [clone_exit] and [changes_vs_head] stand for
    [tools/oca_projects.py] and [tools/gitutils.py], which the script
    imports. *)
Class Collaborators (X : Type) := {
  subprocess : list string -> world X -> Z * world X;
  requests_get : string -> world X -> result response * world X;
  get_repositories : world X -> result (list string) * world X;
  clone_enter : string -> string -> string -> string -> world X -> option exn * world X;
  clone_exit : world X -> world X;
  changes_vs_head : list string -> world X -> bool
}.

(** ** The monad of the script *)

Record outcome (X A : Type) := Outcome {
  res : result A;
  final : world X;
  trace : list event
}.
Arguments Outcome {X A} res final trace.
Arguments res {X A} o.
Arguments final {X A} o.
Arguments trace {X A} o.

Definition M (X A : Type) : Type := world X -> outcome X A.

Definition ret {X A} (a : A) : M X A := fun w => Outcome (Ok a) w [].

Definition raise {X A} (e : exn) : M X A := fun w => Outcome (Raise e) w [].

Definition bind {X A B} (m : M X A) (f : A -> M X B) : M X B := fun w =>
  let o := m w in
  match res o with
  | Ok a => let o' := f a (final o) in
            Outcome (res o') (final o') (trace o ++ trace o')
  | Raise e => Outcome (Raise e) (final o) (trace o)
  end.

Declare Scope script_scope.
Delimit Scope script_scope with script.
Notation "x <- m ;; k" := (bind m (fun x => k))
  (at level 100, m at next level, right associativity) : script_scope.
Notation "m ;;; k" := (bind m (fun _ => k))
  (at level 100, right associativity) : script_scope.
Open Scope script_scope.

Section Script.
Context {X : Type} `{Collaborators X}.

(** [subprocess.call(argv)] *)
Definition call (argv : list string) : M X Z := fun w =>
  let '(rc, w') := subprocess argv w in Outcome (Ok rc) w' [Run argv rc].

(** [subprocess.check_call(argv)] *)
Definition check_call (argv : list string) : M X unit :=
  rc <- call argv ;;
  if (rc =? 0)%Z then ret tt else raise (CalledProcessError rc argv).

Definition print (line : string) : M X unit := fun w =>
  Outcome (Ok tt) w [Print line].

(** [Path(p).exists()], [Path(p).read_text()], [Path(p).write_text(t)] *)
Definition path_exists (p : string) : M X bool := fun w =>
  Outcome (Ok (bool_decide (is_Some (files w !! p)))) w [].

Definition read_text (p : string) : M X string := fun w =>
  match files w !! p with
  | Some t => Outcome (Ok t) w []
  | None => Outcome (Raise (FileNotFoundError p)) w []
  end.

Definition write_text (p t : string) : M X unit := fun w =>
  Outcome (Ok tt) (World (<[p := t]> (files w)) (ext w)) [WriteText p t].

(** [requests.get(url)] *)
Definition get (url : string) : M X response := fun w =>
  let '(r, w') := requests_get url w in Outcome r w' [Get url r].

(** [r.raise_for_status()]: client and server errors raise. *)
Definition raise_for_status (r : response) : M X unit :=
  if ((400 <=? status_code r) && (status_code r <? 600))%Z
  then raise (HTTPError (status_code r)) else ret tt.

(** The address that [_get_update_dotfiles_open_pr] queries. *)
Definition pulls_url (org repo branch : string) : string :=
  "https://api.github.com/repos" ++ "/" ++ org ++ "/" ++ repo ++ "/pulls"
  ++ "?base=" ++ branch ++ "&head=" ++ org ++ ":"
  ++ _make_update_dotfiles_branch branch.

(** [_get_update_dotfiles_open_pr] *)
Definition _get_update_dotfiles_open_pr (org repo branch : string)
  : M X (option Z) :=
  r <- get (pulls_url org repo branch) ;;
  raise_for_status r ;;;
  let prs := json r in
  match prs with
  | [] => ret None
  | pr :: _ =>
      if String.eqb (pr_state pr) "open" then ret (Some (pr_number pr))
      else ret None
  end.

(** Python truth value of the [Optional] number that the lookup returns:
    [None] and [0] are false. *)
Definition truthy (pr : option Z) : bool :=
  match pr with
  | None => false
  | Some n => negb (n =? 0)%Z
  end.

Definition pr_body : string :=
"Dear maintainer,

After updating the dotfiles, `pre-commit run -a`
fails in a manner that cannot be resolved automatically.

Can you please have a look, fix and merge?

Thanks,
".

Definition gh_pr_create (org repo branch : string) : list string :=
  ["gh"; "pr"; "create";
   "--repo"; org ++ "/" ++ repo;
   "--base"; branch;
   "--title"; "[" ++ branch ++ "] dotfiles update needs manual intervention";
   "--body"; pr_body;
   "--label"; "help wanted"].

(** [_make_update_dotfiles_pr] *)
Definition _make_update_dotfiles_pr (org repo branch : string) : M X unit :=
  let pr_branch := _make_update_dotfiles_branch branch in
  check_call ["git"; "checkout"; "-B"; pr_branch] ;;;
  check_call ["git"; "add"; "."] ;;;
  check_call ["git"; "commit"; "-m"; _make_commit_msg false] ;;;
  check_call ["git"; "push"; "-f"; "origin"; pr_branch] ;;;
  pr <- _get_update_dotfiles_open_pr org repo branch ;;
  if negb (truthy pr) then check_call (gh_pr_create org repo branch)
  else ret tt.

(** The call of [get_repositories()]. *)
Definition registry : M X (list string) := fun w =>
  let '(r, w') := get_repositories w in Outcome r w' [ListRepositories].

(** [_iterate_repos_and_branches].  The generator touches the outside
    only through [get_repositories], before its first pair; the pairs
    are therefore computed up front. *)
Definition _iterate_repos_and_branches (repos branches : string)
  : M X (list (string * string)) :=
  all_repos <- (if String.eqb repos ":all:" then registry
                else ret (PyStr.split "," repos)) ;;
  ret (iterate_repos all_repos branches).

(** [_fix_copier_answers] *)
Definition _fix_copier_answers : M X unit :=
  let copier_answers_path := ".copier-answers.yml" in
  present <- path_exists copier_answers_path ;;
  if negb present then ret tt else
  copier_answers <- read_text copier_answers_path ;;
  let modified_copier_answers := fix_answers_text copier_answers in
  if negb (String.eqb modified_copier_answers copier_answers) then
    write_text copier_answers_path modified_copier_answers ;;;
    check_call ["git"; "add"; ".copier-answers.yml"] ;;;
    check_call ["git"; "commit"; "-m"; "[FIX] .copier-answers.yml"]
  else ret tt.

(** Whether [paths] differ from HEAD, as [commit_if_needed] finds out. *)
Definition has_changes (paths : list string) : M X bool := fun w =>
  Outcome (Ok (changes_vs_head paths w)) w [].

(** Modelled from the spec: [commit_if_needed] of [tools/gitutils.py],
    which the script imports and which is not among the sources.  If
    there are staged changes relative to HEAD it creates a commit with
    the given message and reports [True]; if there are none it does
    nothing and reports [False]. *)
Definition commit_if_needed (paths : list string) (message : string)
  : M X bool :=
  changed <- has_changes paths ;;
  if (changed : bool) then
    check_call ["git"; "commit"; "-m"; message] ;;; ret true
  else ret false.

(** Modelled from the spec: the context manager [temporary_clone] of
    [tools/oca_projects.py], not among the sources.  Entering clones the
    branch into a fresh directory and may fail, with
    [BranchNotFoundError] when the remote branch does not exist; leaving
    removes the directory on every path out of the block. *)
Definition with_temporary_clone {A} (org repo branch protocol : string)
  (block : M X A) : M X A := fun w =>
  let '(failure, w1) := clone_enter org repo branch protocol w in
  match failure with
  | Some e => Outcome (Raise e) w1 [CloneEnter org repo branch protocol]
  | None =>
      let o := block w1 in
      Outcome (res o) (clone_exit (final o))
        (CloneEnter org repo branch protocol :: trace o ++ [CloneExit])
  end.

(** [try: ... except BranchNotFoundError: pass] *)
Definition except_branch_not_found (block : M X unit) : M X unit := fun w =>
  let o := block w in
  match res o with
  | Raise BranchNotFoundError => Outcome (Ok tt) (final o) (trace o)
  | _ => o
  end.

Definition pre_commit_cmd : list string := ["pre-commit"; "run"; "-a"].
Definition git_add_all : list string := ["git"; "add"; "."].
Definition copier_update_cmd : list string := ["copier"; "update"; "-f"; "--trust"].

(** [for _ in range(n): r = call(pre-commit); check_call(git add .);
    if r == 0: break], returning the value [r] has after the loop. *)
Fixpoint pre_commit_passes (n : nat) (r : Z) : M X Z :=
  match n with
  | O => ret r
  | S n' =>
      r <- call pre_commit_cmd ;;
      check_call git_add_all ;;;
      if (r =? 0)%Z then ret r else pre_commit_passes n' r
  end.

(** Lines 179-182: the manual-intervention path. *)
Definition manual_intervention (org repo branch : string) : M X unit :=
  print ("$$$$$$$$$$" ++ " " ++ "need manual intervention in " ++ repo) ;;;
  _make_update_dotfiles_pr org repo branch.

(** Lines 183-184: the ready-to-publish path. *)
Definition ready_to_publish (skip_ci : bool) : M X unit :=
  committed <- commit_if_needed ["."] (_make_commit_msg skip_ci) ;;
  if (committed : bool) then check_call ["git"; "push"] else ret tt.

(** Lines 173-184: the formatting passes and what follows them. *)
Definition format_and_publish (org repo branch : string) (skip_ci : bool)
  (r : Z) : M X unit :=
  r <- pre_commit_passes 3 r ;;
  if negb (r =? 0)%Z then manual_intervention org repo branch
  else ready_to_publish skip_ci.

(** Lines 162-184: the scaffold update and what follows it. *)
Definition update_and_publish (org repo branch : string) (skip_ci : bool)
  : M X unit :=
  r <- call copier_update_cmd ;;
  if negb (r =? 0)%Z then
    print ("$$$$$$$$$$" ++ " " ++ "copier update failed on " ++ repo)
  else
    check_call (["rm"; "-f"] ++ IGNORED_REJ_FILES)%list ;;;
    check_call git_add_all ;;;
    format_and_publish org repo branch skip_ci r.

(** Lines 149-184: the block under [with temporary_clone(...)].  Every
    [continue] ends the block. *)
Definition in_clone (org repo branch git_user_name git_user_email : string)
  (skip_ci : bool) : M X unit :=
  print ("==========" ++ " " ++ repo ++ " " ++ branch ++ " " ++ "==========") ;;;
  (if negb (PyStr.is_empty git_user_name)
   then check_call ["git"; "config"; "user.name"; git_user_name]
   else ret tt) ;;;
  (if negb (PyStr.is_empty git_user_email)
   then check_call ["git"; "config"; "user.email"; git_user_email]
   else ret tt) ;;;
  present <- path_exists ".copier-answers.yml" ;;
  if negb present then
    print ("Skipping " ++ repo ++ " because it has no .copier-answers.yml")
  else
    _fix_copier_answers ;;;
    update_and_publish org repo branch skip_ci.

(** Lines 145-186: one turn of the loop of [main]. *)
Definition iteration (org git_user_name git_user_email : string)
  (skip_ci : bool) (git_protocol : string) (target : string * string)
  : M X unit :=
  let '(repo, branch) := target in
  except_branch_not_found
    (with_temporary_clone org repo branch git_protocol
       (in_clone org repo branch git_user_name git_user_email skip_ci)).

Fixpoint main_loop (org git_user_name git_user_email : string)
  (skip_ci : bool) (git_protocol : string) (targets : list (string * string))
  : M X unit :=
  match targets with
  | [] => ret tt
  | target :: rest =>
      iteration org git_user_name git_user_email skip_ci git_protocol target ;;;
      main_loop org git_user_name git_user_email skip_ci git_protocol rest
  end.

(** [main] *)
Definition main (org repos branches git_user_name git_user_email : string)
  (skip_ci : bool) (git_protocol : string) : M X unit :=
  targets <- _iterate_repos_and_branches repos branches ;;
  main_loop org git_user_name git_user_email skip_ci git_protocol targets.

End Script.

(** ** A simulated world

    Collaborators that replay a script, as a test double would: every
    command line has its list of exit codes for its successive runs (and
    exits with 0 when the list is used up or absent), the pull-request
    query always gets the same answer, cloning fails for the branches
    listed as missing and otherwise checks out a fixed set of files. *)
Record sim := Sim {
  sim_codes : list (list string * list Z);
  sim_answer : result response;
  sim_registry : list string;
  sim_missing : list string;
  sim_checkout : gmap string string;
  sim_changes : bool
}.

Fixpoint next_code (argv : list string) (codes : list (list string * list Z))
  : Z * list (list string * list Z) :=
  match codes with
  | [] => (0%Z, [])
  | (a, cs) :: rest =>
      if decide (a = argv) then
        match cs with
        | [] => (0%Z, codes)
        | c :: cs' => (c, (a, cs') :: rest)
        end
      else let '(c, rest') := next_code argv rest in (c, (a, cs) :: rest')
  end.

Definition sim_with_codes (s : sim) (codes : list (list string * list Z)) : sim :=
  Sim codes (sim_answer s) (sim_registry s) (sim_missing s) (sim_checkout s)
    (sim_changes s).

#[export] Instance sim_collaborators : Collaborators sim := {
  subprocess argv w :=
    let '(c, codes) := next_code argv (sim_codes (ext w)) in
    (c, World (files w) (sim_with_codes (ext w) codes));
  requests_get _ w := (sim_answer (ext w), w);
  get_repositories w := (Ok (sim_registry (ext w)), w);
  clone_enter _ _ branch _ w :=
    if bool_decide (branch ∈ sim_missing (ext w))
    then (Some BranchNotFoundError, w)
    else (None, World (sim_checkout (ext w)) (ext w));
  clone_exit w := World ∅ (ext w);
  changes_vs_head _ w := sim_changes (ext w)
}.

Definition sim_world (codes : list (list string * list Z)) (prs : list pull)
  (missing : list string) (checkout : gmap string string) (changes : bool)
  : world sim :=
  World ∅ (Sim codes (Ok {| status_code := 200; json := prs |}) [] missing
             checkout changes).

(** ** Facts about the string helpers *)
Module PyStrFacts.
Import PyStr.

(** [old] occurs somewhere in [s]. *)
Fixpoint occurs_in (old s : string) : bool :=
  starts_with old s
  || match s with EmptyString => false | String _ s' => occurs_in old s' end.

Fixpoint has_char (q : ascii) (s : string) : bool :=
  match s with
  | EmptyString => false
  | String c s' => Ascii.eqb c q || has_char q s'
  end.

Lemma starts_with_cons a p b s :
  starts_with (String a p) (String b s) = true -> a = b /\ starts_with p s = true.
Proof.
  simpl. destruct (Ascii.eqb a b) eqn:E; [|discriminate].
  apply Ascii.eqb_eq in E. auto.
Qed.

Lemma starts_with_trans p q s :
  starts_with p q = true -> starts_with q s = true -> starts_with p s = true.
Proof.
  revert q s; induction p as [|a p IH]; intros [|b q] [|c s]; simpl; try easy.
  destruct (Ascii.eqb a b) eqn:E1; [|discriminate].
  destruct (Ascii.eqb b c) eqn:E2; [|discriminate].
  apply Ascii.eqb_eq in E1, E2. subst. rewrite Ascii.eqb_refl. apply IH.
Qed.

(** A replacement that cannot create a new occurrence of the pattern: the
    pattern avoids a character [q], whatever survives of [new] before its
    first [q] is a prefix of the pattern, and no occurrence starts inside
    [new]. *)
Section ReplaceOnce.
Variables (q : ascii) (old new : string).
Hypothesis old_nonempty : is_empty old = false.
Hypothesis old_clean : has_char q old = false.
Hypothesis new_prefix : forall p t,
  has_char q p = false -> starts_with p (new ++ t) = true ->
  starts_with p old = true.
Hypothesis new_fresh : forall t,
  occurs_in old t = false -> occurs_in old (new ++ t) = false.

Lemma replace_scan_prefix s : forall p,
  has_char q p = false ->
  starts_with p (replace_scan old new s) = true -> starts_with p s = true.
Proof.
  funelim (replace_scan old new s); intros p Hq Hp.
  - exact Hp.
  - eapply starts_with_trans; [eapply new_prefix; eauto | exact Heq].
  - destruct p as [|a p]; [reflexivity|].
    apply starts_with_cons in Hp as [-> Hp]. simpl. rewrite Ascii.eqb_refl.
    simpl in Hq. apply orb_false_iff in Hq as [_ Hq]. eauto.
Qed.

Lemma replace_scan_copy c s :
  starts_with old (String c s) = false ->
  replace_scan old new (String c s) = String c (replace_scan old new s).
Proof. intros Hno. simp replace_scan. rewrite Hno. reflexivity. Qed.

Lemma replace_scan_no_occurrence s :
  occurs_in old (replace_scan old new s) = false.
Proof.
  funelim (replace_scan old new s).
  - destruct old; [discriminate | reflexivity].
  - apply new_fresh. assumption.
  - cbn [occurs_in]. apply orb_false_iff. split; [|assumption].
    destruct (starts_with old (String c (replace_scan old new s'))) eqn:E;
      [|reflexivity].
    rewrite <- (replace_scan_copy _ _ Heq) in E.
    apply replace_scan_prefix in E; [congruence | exact old_clean].
Qed.

Lemma replace_scan_fixed s :
  occurs_in old s = false -> replace_scan old new s = s.
Proof.
  funelim (replace_scan old new s); intros Hs.
  - reflexivity.
  - cbn [occurs_in] in Hs. rewrite Heq in Hs. discriminate.
  - cbn [occurs_in] in Hs. apply orb_false_iff in Hs as [_ Hs].
    f_equal. auto.
Qed.

Lemma replace_scan_idempotent s :
  replace_scan old new (replace_scan old new s) = replace_scan old new s.
Proof. apply replace_scan_fixed, replace_scan_no_occurrence. Qed.
End ReplaceOnce.

Definition dq : ascii := ascii_of_nat 34.

Lemma answers_new_prefix p t :
  has_char dq p = false ->
  starts_with p (("repo_description: " ++ String dq (String dq EmptyString)) ++ t) = true ->
  starts_with p "repo_description: null" = true.
Proof.
  intros Hq Hp. cbn [String.append] in Hp.
  repeat (destruct p as [|? p]; [reflexivity|];
          apply starts_with_cons in Hp as [-> Hp];
          cbn [has_char] in Hq; apply orb_false_iff in Hq as [Hc Hq];
          try (vm_compute in Hc; discriminate Hc); clear Hc;
          cbn [starts_with]; rewrite Ascii.eqb_refl).
Qed.

Lemma answers_new_fresh t :
  occurs_in "repo_description: null" t = false ->
  occurs_in "repo_description: null"
    (("repo_description: " ++ String dq (String dq EmptyString)) ++ t) = false.
Proof. intros Hno. cbn. exact Hno. Qed.

Lemma fix_answers_text_twice s :
  fix_answers_text (fix_answers_text s) = fix_answers_text s.
Proof.
  unfold fix_answers_text, replace.
  apply (replace_scan_idempotent dq); try reflexivity.
  - apply answers_new_prefix.
  - apply answers_new_fresh.
Qed.

Lemma iterate_branches_filter repo fields :
  iterate_branches repo fields
  = List.map (pair repo)
      (List.filter (fun x => negb (is_empty x)) (List.map strip fields)).
Proof.
  induction fields as [|f fields IH]; simpl; [reflexivity|].
  destruct (is_empty (strip f)); simpl; congruence.
Qed.

Lemma iterate_repos_product all_repos branches :
  iterate_repos all_repos branches
  = list_prod
      (List.filter (fun x => negb (is_empty x)) (List.map strip all_repos))
      (trimmed_nonempty_split branches).
Proof.
  induction all_repos as [|r rs IH]; simpl; [reflexivity|].
  destruct (is_empty (strip r)); simpl; [exact IH|].
  rewrite iterate_branches_filter, IH. reflexivity.
Qed.

End PyStrFacts.

(** ** Facts about the monad *)
Section MonadFacts.
Context {X : Type} `{Collaborators X}.

Lemma bind_res {A B} (m : M X A) (f : A -> M X B) w :
  res (bind m f w)
  = match res (m w) with
    | Ok a => res (f a (final (m w)))
    | Raise e => Raise e
    end.
Proof. unfold bind. destruct (res (m w)); reflexivity. Qed.

Lemma bind_trace {A B} (m : M X A) (f : A -> M X B) w :
  trace (bind m f w)
  = (trace (m w)
     ++ match res (m w) with
        | Ok a => trace (f a (final (m w)))
        | Raise e => []
        end)%list.
Proof.
  unfold bind. destruct (res (m w)); simpl; [reflexivity|].
  symmetry. apply app_nil_r.
Qed.

(** Every event that [m] emits satisfies [P], from every world. *)
Definition emits {A} (P : event -> Prop) (m : M X A) : Prop :=
  forall w, Forall P (trace (m w)).

Lemma emits_ret {A} P (a : A) : emits P (ret a).
Proof. intros w. constructor. Qed.

Lemma emits_raise {A} P e : emits P (@raise X A e).
Proof. intros w. constructor. Qed.

Lemma emits_bind {A B} P (m : M X A) (f : A -> M X B) :
  emits P m -> (forall a, emits P (f a)) -> emits P (bind m f).
Proof.
  intros Hm Hf w. rewrite bind_trace. apply Forall_app. split; [apply Hm|].
  destruct (res (m w)); [apply Hf | constructor].
Qed.

Lemma emits_call P argv : (forall rc, P (Run argv rc)) -> emits P (call argv).
Proof.
  intros HP w. unfold call. destruct (subprocess argv w) as [rc w'].
  repeat constructor. apply HP.
Qed.

Lemma emits_check_call P argv :
  (forall rc, P (Run argv rc)) -> emits P (check_call argv).
Proof.
  intros HP. apply emits_bind; [apply emits_call, HP|].
  intros rc. destruct (rc =? 0)%Z; [apply emits_ret | apply emits_raise].
Qed.

Lemma emits_print P line : P (Print line) -> emits P (print line).
Proof. intros HP w. repeat constructor. exact HP. Qed.

Lemma emits_path_exists P p : emits P (path_exists p).
Proof. intros w. constructor. Qed.

Lemma emits_read_text P p : emits P (read_text p).
Proof. intros w. unfold read_text. destruct (files w !! p); constructor. Qed.

Lemma emits_write_text P p t : P (WriteText p t) -> emits P (write_text p t).
Proof. intros HP w. repeat constructor. exact HP. Qed.

Lemma emits_get P url : (forall r, P (Get url r)) -> emits P (get url).
Proof.
  intros HP w. unfold get. destruct (requests_get url w) as [r w'].
  repeat constructor. apply HP.
Qed.

Lemma emits_raise_for_status P r : emits P (raise_for_status r).
Proof.
  unfold raise_for_status.
  destruct (_ && _); [apply emits_raise | apply emits_ret].
Qed.

(** What a command at the head of a block contributes. *)
Lemma call_bind {B} argv (k : Z -> M X B) w :
  (r <- call argv ;; k r) w
  = let ran := subprocess argv w in
    let o := k ran.1 ran.2 in
    Outcome (res o) (final o) (Run argv ran.1 :: trace o).
Proof.
  unfold bind, call. destruct (subprocess argv w) as [rc w']. reflexivity.
Qed.

Lemma check_call_bind {B} argv (k : unit -> M X B) w :
  bind (check_call argv) k w
  = let ran := subprocess argv w in
    if (ran.1 =? 0)%Z then
      let o := k tt ran.2 in
      Outcome (res o) (final o) (Run argv ran.1 :: trace o)
    else Outcome (Raise (CalledProcessError ran.1 argv)) ran.2 [Run argv ran.1].
Proof.
  unfold check_call, bind, call. destruct (subprocess argv w) as [rc w'].
  cbn. destruct (rc =? 0)%Z; reflexivity.
Qed.

Lemma check_call_last argv w :
  check_call argv w
  = let ran := subprocess argv w in
    Outcome (if (ran.1 =? 0)%Z then Ok tt
             else Raise (CalledProcessError ran.1 argv))
      ran.2 [Run argv ran.1].
Proof.
  unfold check_call, bind, call. destruct (subprocess argv w) as [rc w'].
  cbn. destruct (rc =? 0)%Z; reflexivity.
Qed.

Lemma pure_bind {A B} (m : M X A) (k : A -> M X B) w a :
  m w = Outcome (Ok a) w [] -> bind m k w = k a w.
Proof. intros Hm. unfold bind. rewrite Hm. cbn. destruct (k a w); reflexivity. Qed.

Lemma write_text_bind {B} p t (k : unit -> M X B) w :
  bind (write_text p t) k w
  = let o := k tt (World (<[p := t]> (files w)) (ext w)) in
    Outcome (res o) (final o) (WriteText p t :: trace o).
Proof. reflexivity. Qed.

Lemma emits_has_changes P paths : emits P (has_changes paths).
Proof. intros w. constructor. Qed.

Lemma emits_if {A} P (b : bool) (m1 m2 : M X A) :
  emits P m1 -> emits P m2 -> emits P (if b then m1 else m2).
Proof. destruct b; auto. Qed.

End MonadFacts.

(** ** The formatting passes *)

Definition is_pre_commit (e : event) : bool :=
  match e with
  | Run argv _ => bool_decide (argv = ["pre-commit"; "run"; "-a"])
  | _ => false
  end.

(** How often the formatting tool ran in a trace. *)
Definition invocations (tr : list event) : nat :=
  length (List.filter is_pre_commit tr).


Section Formatting.
Context {X : Type} `{Collaborators X}.

(** One turn of the loop, spelled out. *)
Lemma pre_commit_passes_step n r w :
  let ran := subprocess pre_commit_cmd w in
  let staged := subprocess git_add_all ran.2 in
  pre_commit_passes (S n) r w
  = if (staged.1 =? 0)%Z then
      if (ran.1 =? 0)%Z then
        Outcome (Ok ran.1) staged.2
          [Run pre_commit_cmd ran.1; Run git_add_all staged.1]
      else
        let o := pre_commit_passes n ran.1 staged.2 in
        Outcome (res o) (final o)
          (Run pre_commit_cmd ran.1 :: Run git_add_all staged.1 :: trace o)
    else
      Outcome (Raise (CalledProcessError staged.1 git_add_all)) staged.2
        [Run pre_commit_cmd ran.1; Run git_add_all staged.1].
Proof.
  cbn zeta. cbn [pre_commit_passes]. unfold bind, check_call, call, bind.
  destruct (subprocess pre_commit_cmd w) as [rc w1]. cbn.
  destruct (subprocess git_add_all w1) as [rc' w2]. cbn.
  destruct (rc' =? 0)%Z; cbn; [|reflexivity].
  destruct (rc =? 0)%Z; cbn; reflexivity.
Qed.

Lemma invocations_turn rc rc' tr :
  invocations (Run pre_commit_cmd rc :: Run git_add_all rc' :: tr)
  = S (invocations tr).
Proof. reflexivity. Qed.

Lemma pre_commit_passes_bound n r w :
  invocations (trace (pre_commit_passes n r w)) <= n.
Proof.
  revert r w. induction n as [|n IH]; intros r w; [apply Nat.le_refl|].
  rewrite pre_commit_passes_step. cbn zeta.
  destruct (_ =? 0)%Z; [destruct (_ =? 0)%Z|]; cbn [trace];
    rewrite invocations_turn; [cbn; lia | | cbn; lia].
  apply le_n_S, IH.
Qed.




(** The loop against a world whose answers are known. *)
Local Ltac turn E S :=
  rewrite pre_commit_passes_step; cbn zeta; rewrite E, S;
  cbn [Z.eqb Pos.eqb res trace final].




End Formatting.

(** ** The manual-intervention pull request *)

Definition is_pr_create (e : event) : bool :=
  match e with
  | Run (a :: b :: c :: _) _ =>
      String.eqb a "gh" && String.eqb b "pr" && String.eqb c "create"
  | _ => false
  end.


Section PullRequests.
Context {X : Type} `{Collaborators X}.

Lemma raise_for_status_ok r (w : world X) :
  ~ (400 <= status_code r < 600)%Z ->
  raise_for_status r w = Outcome (Ok tt) w [].
Proof.
  intros Hok. unfold raise_for_status.
  destruct (_ && _) eqn:E; [|reflexivity].
  apply andb_true_iff in E as [E1 E2]. lia.
Qed.

(** The lookup, given the answer of the API. *)
Lemma open_pr_lookup_answer org repo branch w r w' :
  requests_get (pulls_url org repo branch) w = (Ok r, w') ->
  ~ (400 <= status_code r < 600)%Z ->
  _get_update_dotfiles_open_pr org repo branch w
  = Outcome
      (Ok match json r with
          | [] => None
          | pr :: _ =>
              if String.eqb (pr_state pr) "open" then Some (pr_number pr)
              else None
          end)
      w' [Get (pulls_url org repo branch) (Ok r)].
Proof.
  intros Hget Hok. unfold _get_update_dotfiles_open_pr, bind, get.
  rewrite Hget. cbn. rewrite (raise_for_status_ok _ _ Hok). cbn.
  destruct (json r) as [|pr rest]; [reflexivity|].
  destruct (String.eqb (pr_state pr) "open"); reflexivity.
Qed.

(** The answer of the lookup for a list of pull requests. *)
Definition first_open (prs : list pull) : option Z :=
  match prs with
  | [] => None
  | pr :: _ =>
      if String.eqb (pr_state pr) "open" then Some (pr_number pr) else None
  end.

Lemma open_pr_lookup_outcome org repo branch w :
  let a := requests_get (pulls_url org repo branch) w in
  _get_update_dotfiles_open_pr org repo branch w
  = Outcome
      match a.1 with
      | Ok r =>
          if ((400 <=? status_code r) && (status_code r <? 600))%Z
          then Raise (HTTPError (status_code r))
          else Ok (first_open (json r))
      | Raise e => Raise e
      end
      a.2 [Get (pulls_url org repo branch) a.1].
Proof.
  cbn zeta. unfold _get_update_dotfiles_open_pr, bind, get, raise_for_status.
  destruct (requests_get (pulls_url org repo branch) w) as [[r|e] w'];
    cbn; [|reflexivity].
  destruct (_ && _); cbn; [reflexivity|].
  unfold first_open. destruct (json r) as [|pr rest]; [reflexivity|].
  destruct (String.eqb (pr_state pr) "open"); reflexivity.
Qed.

(** The shape of every trace of [_make_update_dotfiles_pr]: some of the
    four git commands, then possibly the query, then possibly the
    creation, and the creation only behind an answer whose first element
    is not an open pull request with a number that counts as true. *)
Definition is_git (e : event) : bool :=
  match e with
  | Run (a :: _) _ => String.eqb a "git"
  | _ => false
  end.


(** C10.  Given a list from the hosting API, the open-PR lookup returns
    a number exactly when the list is not empty and its first element
    has state "open", and that number is the first element's; it
    returns no PR exactly when the list is empty or its first element is
    not open, whatever the later elements are. *)
Theorem open_pr_lookup_first_only (org repo branch : string) (w w' : world X)
  (r : response) :
  requests_get (pulls_url org repo branch) w = (Ok r, w') ->
  ~ (400 <= status_code r < 600)%Z ->
  let o := _get_update_dotfiles_open_pr org repo branch w in
  (forall n, res o = Ok (Some n) <->
     exists pr rest, json r = pr :: rest /\ pr_state pr = "open"
                     /\ pr_number pr = n)
  /\ (res o = Ok None <->
      json r = [] \/ exists pr rest, json r = pr :: rest /\ pr_state pr <> "open").
Proof.
  intros Hget Hok o. subst o.
  rewrite (open_pr_lookup_answer _ _ _ _ _ _ Hget Hok). cbn [res].
  destruct (json r) as [|pr rest].
  - split; [intros n|]; split; try discriminate; auto.
    + intros (? & ? & ? & _). discriminate.
  - destruct (String.eqb_spec (pr_state pr) "open") as [Hopen|Hclosed].
    + split; [intros n|]; split.
      * intros [= <-]. eauto.
      * intros (pr' & rest' & [= <- <-] & _ & <-). reflexivity.
      * discriminate.
      * intros [|(pr' & rest' & [= <- <-] & Hne)]; [discriminate | contradiction].
    + split; [intros n|]; split.
      * discriminate.
      * intros (pr' & rest' & [= <- <-] & Hopen & _). contradiction.
      * eauto.
      * reflexivity.
Qed.






End PullRequests.

(** ** Commit and publish *)

Definition is_commit (e : event) : bool :=
  match e with
  | Run (a :: b :: _) _ => String.eqb a "git" && String.eqb b "commit"
  | _ => false
  end.

Definition is_push (e : event) : bool :=
  match e with
  | Run (a :: b :: _) _ => String.eqb a "git" && String.eqb b "push"
  | _ => false
  end.

Definition is_checkout (e : event) : bool :=
  match e with
  | Run (a :: b :: _) _ => String.eqb a "git" && String.eqb b "checkout"
  | _ => false
  end.

(** The message of a [git commit -m <message>] event. *)
Definition commit_message (e : event) : option string :=
  match e with
  | Run (a :: b :: c :: msg :: _) _ =>
      if String.eqb a "git" && String.eqb b "commit" && String.eqb c "-m"
      then Some msg else None
  | _ => None
  end.

(** The message carries the CI-skip marker. *)
Definition ci_skip_marked (msg : string) : bool :=
  PyStrFacts.occurs_in "[ci skip]" msg.

Section Publish.
Context {X : Type} `{Collaborators X}.

Definition git_commit (msg : string) : list string :=
  ["git"; "commit"; "-m"; msg].

Lemma commit_if_needed_outcome paths msg w :
  commit_if_needed paths msg w
  = if changes_vs_head paths w then
      let ran := subprocess (git_commit msg) w in
      Outcome (if (ran.1 =? 0)%Z then Ok true
               else Raise (CalledProcessError ran.1 (git_commit msg)))
        ran.2 [Run (git_commit msg) ran.1]
    else Outcome (Ok false) w [].
Proof.
  unfold commit_if_needed, has_changes. unfold bind at 1. cbn [res final trace].
  destruct (changes_vs_head paths w); [|reflexivity].
  rewrite check_call_bind. cbn zeta. fold (git_commit msg).
  destruct (_ =? 0)%Z; reflexivity.
Qed.

Lemma ready_to_publish_outcome skip_ci w :
  ready_to_publish skip_ci w
  = if changes_vs_head ["."] w then
      let msg := _make_commit_msg skip_ci in
      let ran := subprocess (git_commit msg) w in
      if (ran.1 =? 0)%Z then
        let pushed := subprocess ["git"; "push"] ran.2 in
        Outcome (if (pushed.1 =? 0)%Z then Ok tt
                 else Raise (CalledProcessError pushed.1 ["git"; "push"]))
          pushed.2 [Run (git_commit msg) ran.1; Run ["git"; "push"] pushed.1]
      else
        Outcome (Raise (CalledProcessError ran.1 (git_commit msg))) ran.2
          [Run (git_commit msg) ran.1]
    else Outcome (Ok tt) w [].
Proof.
  unfold ready_to_publish, bind. rewrite commit_if_needed_outcome.
  destruct (changes_vs_head ["."] w); [|reflexivity]. cbn zeta.
  cbn [res final trace]. destruct (_ =? 0)%Z; [|reflexivity].
  rewrite check_call_last. reflexivity.
Qed.

(** C6.  On the ready-to-publish path, when nothing differs from HEAD
    the script creates no commit and pushes nothing: it runs no command
    at all and leaves the world as it is.  [git push] runs exactly when
    [commit_if_needed] reports that it made a commit, once, right behind
    the commit. *)
Theorem push_exactly_after_commit (skip_ci : bool) (w : world X) :
  let o := ready_to_publish skip_ci w in
  let c := commit_if_needed ["."] (_make_commit_msg skip_ci) w in
  (changes_vs_head ["."] w = false ->
   c = Outcome (Ok false) w [] /\ o = Outcome (Ok tt) w [])
  /\ ((exists e, In e (trace o) /\ is_push e = true) <-> res c = Ok true)
  /\ (res c = Ok true ->
      exists rc, trace o = (trace c ++ [Run ["git"; "push"] rc])%list).
Proof.
  cbn zeta. rewrite ready_to_publish_outcome, commit_if_needed_outcome.
  destruct (changes_vs_head ["."] w); cbn zeta.
  - split; [discriminate|].
    destruct (_ =? 0)%Z; cbn [res trace]; split.
    + split; [reflexivity|]. intros _. eexists. split; [right; left; reflexivity|].
      reflexivity.
    + intros _. eexists. reflexivity.
    + split; [|discriminate]. intros (e & [<-|[]] & He). discriminate.
    + discriminate.
  - split; [auto|]. cbn [res trace]. split; [|discriminate].
    split; [|discriminate]. intros (e & [] & _).
Qed.

(** C8.  The message is "[IMP] update dotfiles" without the skip-ci flag
    and "[IMP] update dotfiles [ci skip]" with it, and every commit of
    the ready-to-publish path is [git commit -m] with exactly the message
    that belongs to the flag. *)
Theorem direct_push_commit_message (skip_ci : bool) (w : world X) :
  _make_commit_msg false = "[IMP] update dotfiles"
  /\ _make_commit_msg true = "[IMP] update dotfiles [ci skip]"
  /\ ready_to_publish skip_ci
     = (committed <- commit_if_needed ["."]
                       (if skip_ci then "[IMP] update dotfiles [ci skip]"
                        else "[IMP] update dotfiles") ;;
        if (committed : bool) then check_call ["git"; "push"] else ret tt)
  /\ forall e, In e (trace (ready_to_publish skip_ci w)) -> is_commit e = true ->
       exists rc,
         e = Run ["git"; "commit"; "-m";
                  if skip_ci then "[IMP] update dotfiles [ci skip]"
                  else "[IMP] update dotfiles"] rc.
Proof.
  split; [reflexivity|]. split; [reflexivity|].
  split; [destruct skip_ci; reflexivity|].
  intros e. rewrite ready_to_publish_outcome.
  destruct (changes_vs_head ["."] w); cbn zeta; [|intros []].
  destruct (_ =? 0)%Z; cbn [trace].
  - intros [<-|[<-|[]]] Hc; [|discriminate].
    eexists. destruct skip_ci; reflexivity.
  - intros [<-|[]] _. eexists. destruct skip_ci; reflexivity.
Qed.

End Publish.

(** ** The answers file and the iterator *)

Section Answers.
Context {X : Type} `{Collaborators X}.

Definition answers_path : string := ".copier-answers.yml".

#[local] Arguments fix_answers_text : simpl never.

Lemma fix_copier_answers_outcome w :
  _fix_copier_answers w
  = match files w !! answers_path with
    | None => Outcome (Ok tt) w []
    | Some t =>
        if String.eqb (fix_answers_text t) t then Outcome (Ok tt) w []
        else
          let w1 := World (<[answers_path := fix_answers_text t]> (files w)) (ext w) in
          let added := subprocess ["git"; "add"; ".copier-answers.yml"] w1 in
          if (added.1 =? 0)%Z then
            let made := subprocess ["git"; "commit"; "-m"; "[FIX] .copier-answers.yml"]
                          added.2 in
            Outcome (if (made.1 =? 0)%Z then Ok tt
                     else Raise (CalledProcessError made.1
                                   ["git"; "commit"; "-m"; "[FIX] .copier-answers.yml"]))
              made.2
              [WriteText answers_path (fix_answers_text t);
               Run ["git"; "add"; ".copier-answers.yml"] added.1;
               Run ["git"; "commit"; "-m"; "[FIX] .copier-answers.yml"] made.1]
          else
            Outcome (Raise (CalledProcessError added.1
                              ["git"; "add"; ".copier-answers.yml"]))
              added.2
              [WriteText answers_path (fix_answers_text t);
               Run ["git"; "add"; ".copier-answers.yml"] added.1]
    end.
Proof.
  unfold _fix_copier_answers, answers_path. cbn zeta.
  rewrite (pure_bind _ _ _ _ (eq_refl : path_exists _ w = _)).
  destruct (files w !! ".copier-answers.yml") as [t|] eqn:Hfile.
  - rewrite bool_decide_eq_true_2 by eauto. cbn [negb].
    rewrite (pure_bind (read_text _) _ w t) by (unfold read_text; rewrite Hfile; reflexivity).
    destruct (String.eqb (fix_answers_text t) t); cbn [negb]; [reflexivity|].
    rewrite write_text_bind. cbn zeta.
    rewrite check_call_bind. cbn zeta.
    destruct (_ =? 0)%Z; cbn [res final trace]; [|reflexivity].
    rewrite check_call_last. reflexivity.
  - rewrite bool_decide_eq_false_2 by (intros [? ?]; discriminate). reflexivity.
Qed.

(** C5.  The rewrite of the answers text is idempotent; the fixer does
    nothing and raises nothing when the file is absent or when the rewrite
    leaves its text unchanged; and where git leaves the answers file as it
    is, a second run after a first finds the rewritten text, writes
    nothing, runs no git command and so makes no second commit. *)
Theorem answers_fix_idempotent (w : world X) :
  (forall text, fix_answers_text (fix_answers_text text) = fix_answers_text text)
  /\ (files w !! answers_path = None ->
      _fix_copier_answers w = Outcome (Ok tt) w [])
  /\ (forall text, files w !! answers_path = Some text ->
        fix_answers_text text = text ->
        _fix_copier_answers w = Outcome (Ok tt) w [])
  /\ ((forall argv w', hd_error argv = Some "git" ->
         files (subprocess argv w').2 !! answers_path = files w' !! answers_path) ->
      let first := _fix_copier_answers w in
      files (final first) !! answers_path
      = fix_answers_text <$> files w !! answers_path
      /\ _fix_copier_answers (final first) = Outcome (Ok tt) (final first) []).
Proof.
  split; [apply PyStrFacts.fix_answers_text_twice|].
  split; [intros Hnone; rewrite fix_copier_answers_outcome, Hnone; reflexivity|].
  split.
  { intros text Hsome Hsame. rewrite fix_copier_answers_outcome, Hsome, Hsame.
    rewrite String.eqb_refl. reflexivity. }
  intros Hframe first.
  assert (Hfinal : files (final first) !! answers_path
                   = fix_answers_text <$> files w !! answers_path).
  { subst first. rewrite fix_copier_answers_outcome.
    destruct (files w !! answers_path) as [t|] eqn:Hfile; [|cbn; assumption].
    destruct (String.eqb_spec (fix_answers_text t) t) as [Hsame|Hdiff].
    - cbn. rewrite Hfile, Hsame. reflexivity.
    - cbn zeta. destruct (_ =? 0)%Z; cbn [final].
      + rewrite !Hframe by reflexivity. cbn. apply lookup_insert_eq.
      + rewrite !Hframe by reflexivity. cbn. apply lookup_insert_eq. }
  split; [exact Hfinal|].
  rewrite fix_copier_answers_outcome, Hfinal.
  destruct (files w !! answers_path) as [t|]; cbn; [|reflexivity].
  rewrite PyStrFacts.fix_answers_text_twice, String.eqb_refl. reflexivity.
Qed.

(** C4.  For a selector other than ":all:" the iterator yields, without
    touching the outside, the cross-product of the trimmed, non-empty
    comma-split of [repos] with that of [branches], in input order;
    these are |repos| x |branches| pairs. *)
Theorem iterator_cross_product (repos branches : string) (w : world X) :
  repos <> ":all:" ->
  _iterate_repos_and_branches repos branches w
  = Outcome (Ok (list_prod (trimmed_nonempty_split repos)
                   (trimmed_nonempty_split branches))) w []
  /\ length (list_prod (trimmed_nonempty_split repos)
               (trimmed_nonempty_split branches))
     = length (trimmed_nonempty_split repos)
       * length (trimmed_nonempty_split branches).
Proof.
  intros Hsel. split; [|apply length_prod].
  unfold _iterate_repos_and_branches.
  destruct (String.eqb_spec repos ":all:") as [Hall|_]; [contradiction|].
  unfold bind, ret. cbn. rewrite PyStrFacts.iterate_repos_product. reflexivity.
Qed.

End Answers.

(** ** One turn of the main loop *)

(** Walks through a block and leaves one goal per event it can emit. *)
Ltac emits_walk :=
  repeat (cbn beta;
    lazymatch goal with
    | |- emits _ (bind _ _) => apply emits_bind; [|intros ?]
    | |- emits _ (if _ then _ else _) => apply emits_if
    | |- emits _ (match ?x with _ => _ end) => destruct x
    | |- emits _ (ret _) => apply emits_ret
    | |- emits _ (raise _) => apply emits_raise
    | |- emits _ (check_call _) => apply emits_check_call; intros ?
    | |- emits _ (call _) => apply emits_call; intros ?
    | |- emits _ (print _) => apply emits_print
    | |- emits _ (path_exists _) => apply emits_path_exists
    | |- emits _ (read_text _) => apply emits_read_text
    | |- emits _ (write_text _ _) => apply emits_write_text
    | |- emits _ (get _) => apply emits_get; intros ?
    | |- emits _ (raise_for_status _) => apply emits_raise_for_status
    | |- emits _ (has_changes _) => apply emits_has_changes
    end).

Section Turn.
Context {X : Type} `{Collaborators X}.

Lemma emits_pre_commit_passes P n r :
  (forall rc, P (Run pre_commit_cmd rc)) -> (forall rc, P (Run git_add_all rc)) ->
  emits P (pre_commit_passes n r).
Proof.
  intros Hrun Hadd. revert r. induction n as [|n IH]; intros r; cbn [pre_commit_passes].
  - apply emits_ret.
  - emits_walk; auto.
Qed.

Lemma emits_fix_copier_answers P :
  (forall text, P (WriteText ".copier-answers.yml" text)) ->
  (forall rc, P (Run ["git"; "add"; ".copier-answers.yml"] rc)) ->
  (forall rc, P (Run ["git"; "commit"; "-m"; "[FIX] .copier-answers.yml"] rc)) ->
  emits P _fix_copier_answers.
Proof.
  intros Hwrite Hadd Hcommit. unfold _fix_copier_answers. emits_walk; auto.
Qed.

(** The events before the scaffold update: the banner, the two
    [git config] commands and what [_fix_copier_answers] does. *)
Definition setup (org repo branch git_user_name git_user_email : string)
  : M X bool :=
  print ("==========" ++ " " ++ repo ++ " " ++ branch ++ " " ++ "==========") ;;;
  (if negb (PyStr.is_empty git_user_name)
   then check_call ["git"; "config"; "user.name"; git_user_name]
   else ret tt) ;;;
  (if negb (PyStr.is_empty git_user_email)
   then check_call ["git"; "config"; "user.email"; git_user_email]
   else ret tt) ;;;
  path_exists ".copier-answers.yml".

Lemma emits_setup P org repo branch name email :
  (forall line, P (Print line)) ->
  (forall rc, P (Run ["git"; "config"; "user.name"; name] rc)) ->
  (forall rc, P (Run ["git"; "config"; "user.email"; email] rc)) ->
  emits P (setup org repo branch name email).
Proof. intros Hprint Hname Hemail. unfold setup. emits_walk; auto. Qed.

Lemma bind_assoc {A B C} (m : M X A) (f : A -> M X B) (g : B -> M X C) w :
  bind (bind m f) g w = bind m (fun a => bind (f a) g) w.
Proof.
  unfold bind. destruct (m w) as [[a|e] w1 t1]; cbn; [|reflexivity].
  destruct (f a w1) as [[b|e] w2 t2]; cbn; [|reflexivity].
  rewrite app_assoc. reflexivity.
Qed.

Lemma bind_ext {A B} (m : M X A) (f g : A -> M X B) w :
  (forall a w', f a w' = g a w') -> bind m f w = bind m g w.
Proof.
  intros Hfg. unfold bind. destruct (res (m w)); [rewrite Hfg|]; reflexivity.
Qed.

Lemma in_clone_split org repo branch name email skip_ci w :
  in_clone org repo branch name email skip_ci w
  = (present <- setup org repo branch name email ;;
     if negb present then
       print ("Skipping " ++ repo ++ " because it has no .copier-answers.yml")
     else _fix_copier_answers ;;; update_and_publish org repo branch skip_ci) w.
Proof.
  unfold in_clone, setup. symmetry.
  rewrite bind_assoc. apply bind_ext. intros _ w1.
  rewrite bind_assoc. apply bind_ext. intros _ w2.
  rewrite bind_assoc. reflexivity.
Qed.

(** *** Where the CI-skip marker can appear *)

(** The event is no commit with the CI-skip marker. *)
Definition unmarked (e : event) : Prop :=
  forall msg, commit_message e = Some msg -> ci_skip_marked msg = false.

(** The event stays on the checked-out branch, and if it is a commit with
    the CI-skip marker then the flag is set and the message is the one of
    the direct push. *)
Definition on_branch (skip_ci : bool) (e : event) : Prop :=
  is_checkout e = false
  /\ forall msg, commit_message e = Some msg -> ci_skip_marked msg = true ->
       skip_ci = true /\ msg = "[IMP] update dotfiles [ci skip]".

(** All events of a run satisfy [P], or all of them satisfy [Q]. *)
Definition either {A} (P Q : event -> Prop) (m : M X A) : Prop :=
  forall w, Forall P (trace (m w)) \/ Forall Q (trace (m w)).

Lemma either_bind {A B} P Q (m : M X A) (f : A -> M X B) :
  emits (fun e => P e /\ Q e) m -> (forall a, either P Q (f a)) ->
  either P Q (bind m f).
Proof.
  intros Hm Hf w. rewrite bind_trace. specialize (Hm w).
  apply Forall_and_inv in Hm as [HP HQ].
  destruct (res (m w)) as [a|e].
  - destruct (Hf a (final (m w))) as [Hl|Hr]; [left|right];
      apply Forall_app; split; assumption.
  - rewrite app_nil_r. left. exact HP.
Qed.

Lemma either_left {A} P Q (m : M X A) : emits P m -> either P Q m.
Proof. intros Hm w. left. apply Hm. Qed.

Lemma either_right {A} P Q (m : M X A) : emits Q m -> either P Q m.
Proof. intros Hm w. right. apply Hm. Qed.

Lemma either_with_temporary_clone {A} P Q org repo branch protocol (block : M X A) :
  P (CloneEnter org repo branch protocol) -> Q (CloneEnter org repo branch protocol) ->
  P CloneExit -> Q CloneExit ->
  either P Q block -> either P Q (with_temporary_clone org repo branch protocol block).
Proof.
  intros HPin HQin HPout HQout Hblock w. unfold with_temporary_clone.
  destruct (clone_enter org repo branch protocol w) as [[e|] w1]; cbn [trace].
  - left. repeat constructor. exact HPin.
  - destruct (Hblock w1) as [Hl|Hr]; [left|right];
      (constructor; [assumption|]); apply Forall_app; split; auto.
Qed.

Lemma either_except_branch_not_found P Q (block : M X unit) :
  either P Q block -> either P Q (except_branch_not_found block).
Proof.
  intros Hblock w. unfold except_branch_not_found. specialize (Hblock w).
  destruct (res (block w)) as [|[]]; exact Hblock.
Qed.

Local Ltac no_commit :=
  let msg := fresh "msg" in let Hm := fresh "Hm" in
  intros msg Hm; cbn in Hm;
  first [ discriminate Hm | injection Hm as <-; reflexivity ].

Lemma manual_intervention_unmarked org repo branch :
  emits unmarked (manual_intervention org repo branch).
Proof.
  unfold manual_intervention, _make_update_dotfiles_pr,
    _get_update_dotfiles_open_pr.
  emits_walk; no_commit.
Qed.

Lemma ready_to_publish_on_branch skip_ci :
  emits (on_branch skip_ci) (ready_to_publish skip_ci).
Proof.
  unfold ready_to_publish, commit_if_needed.
  emits_walk; (split; [reflexivity|]); intros msg Hm Hmark; cbn in Hm;
    try discriminate Hm.
  injection Hm as <-. destruct skip_ci; [split; reflexivity | discriminate Hmark].
Qed.

Lemma iteration_either org name email skip_ci protocol target :
  either unmarked (on_branch skip_ci)
    (iteration org name email skip_ci protocol target).
Proof.
  destruct target as [repo branch]. unfold iteration.
  apply either_except_branch_not_found.
  apply either_with_temporary_clone;
    [no_commit | split; [reflexivity | discriminate]
     | no_commit | split; [reflexivity | discriminate] |].
  intros w. rewrite in_clone_split. revert w.
  apply either_bind.
  { apply emits_setup; intros; (split; [no_commit | split; [reflexivity | discriminate]]). }
  intros present. destruct present; cbn [negb].
  2: { apply either_left. emits_walk. no_commit. }
  apply either_bind.
  { apply emits_fix_copier_answers; intros;
      (split; [no_commit | split; [reflexivity | intros msg Hm Hmark; cbn in Hm;
                                     try discriminate Hm]]).
    injection Hm as <-. discriminate Hmark. }
  intros _. unfold update_and_publish.
  apply either_bind.
  { emits_walk. split; [no_commit | split; [reflexivity | discriminate]]. }
  intros r. destruct (negb (r =? 0)%Z).
  { apply either_left. emits_walk. no_commit. }
  apply either_bind.
  { emits_walk. split; [no_commit | split; [reflexivity | discriminate]]. }
  intros _. apply either_bind.
  { emits_walk. split; [no_commit | split; [reflexivity | discriminate]]. }
  intros _. unfold format_and_publish. apply either_bind.
  { apply emits_pre_commit_passes; intros;
      (split; [no_commit | split; [reflexivity | discriminate]]). }
  intros r'. destruct (negb (r' =? 0)%Z).
  - apply either_left, manual_intervention_unmarked.
  - apply either_right, ready_to_publish_on_branch.
Qed.

(** C9.  The manual-intervention path commits on the pull-request branch
    with the plain message "[IMP] update dotfiles", the one for
    [ci_skip=False], whatever the skip-ci flag of the run is: once the
    checkout and the staging have succeeded, [git commit -m] runs with
    exactly that message, and no commit of the path carries another one;
    the path is the same block for both values of the flag.  A commit
    with the CI-skip marker appears in a turn of the loop only when the
    flag is set, with the message of the direct push, in a turn that never
    checks out the pull-request branch. *)
Theorem pr_branch_commit_never_skips_ci (org repo branch git_user_name
  git_user_email : string) (skip_ci : bool) (git_protocol : string)
  (w : world X) :
  (forall e msg,
      In e (trace (manual_intervention org repo branch w)) ->
      commit_message e = Some msg ->
      msg = "[IMP] update dotfiles" /\ msg = _make_commit_msg false)
  /\ (let tr := trace (iteration org git_user_name git_user_email skip_ci
                        git_protocol (repo, branch) w) in
      forall e msg,
        In e tr -> commit_message e = Some msg -> ci_skip_marked msg = true ->
        skip_ci = true /\ msg = "[IMP] update dotfiles [ci skip]"
        /\ forall e', In e' tr -> is_checkout e' = false)
  /\ (let checkout := ["git"; "checkout"; "-B"; _make_update_dotfiles_branch branch] in
      let checked := subprocess checkout w in
      let staged := subprocess ["git"; "add"; "."] checked.2 in
      checked.1 = 0%Z -> staged.1 = 0%Z ->
      exists rc rest,
        trace (manual_intervention org repo branch w)
        = Print ("$$$$$$$$$$ need manual intervention in " ++ repo)
          :: Run checkout 0
          :: Run ["git"; "add"; "."] 0
          :: Run ["git"; "commit"; "-m"; "[IMP] update dotfiles"] rc
          :: rest)
  /\ (forall r r',
        res (pre_commit_passes 3 r w) = Ok r' -> r' <> 0%Z ->
        format_and_publish org repo branch skip_ci r w
        = (pre_commit_passes 3 r ;;; manual_intervention org repo branch) w).
Proof.
  split; [|split; [|split]].
  - assert (Hplain : emits (fun e => forall msg, commit_message e = Some msg ->
                                msg = "[IMP] update dotfiles")
                       (manual_intervention org repo branch)).
    { unfold manual_intervention, _make_update_dotfiles_pr,
        _get_update_dotfiles_open_pr.
      emits_walk; intros msg Hm; cbn in Hm; try discriminate Hm.
      injection Hm as <-. reflexivity. }
    intros e msg He Hm. specialize (Hplain w). rewrite List.Forall_forall in Hplain.
    split; [|change (_make_commit_msg false) with "[IMP] update dotfiles"];
      exact (Hplain e He msg Hm).
  - intros tr e msg He Hm Hmark. subst tr.
    destruct (iteration_either org git_user_name git_user_email skip_ci
                git_protocol (repo, branch) w) as [Hun|Hon];
      rewrite List.Forall_forall in *.
    + rewrite (Hun e He msg Hm) in Hmark. discriminate.
    + destruct (proj2 (Hon e He) msg Hm Hmark) as [Hflag Hmsg].
      split; [exact Hflag|]. split; [exact Hmsg|].
      intros e' He'. apply (Hon e' He').
  - intros checkout checked staged Hchecked Hstaged.
    unfold manual_intervention, _make_update_dotfiles_pr. cbn zeta.
    rewrite bind_trace. cbn [print res final trace app].
    fold checkout. rewrite check_call_bind. cbn zeta. fold checked.
    rewrite Hchecked. cbn [Z.eqb trace].
    rewrite check_call_bind. cbn zeta. fold staged.
    rewrite Hstaged. cbn [Z.eqb trace].
    rewrite check_call_bind. cbn zeta.
    destruct (_ =? 0)%Z; cbn [trace]; eexists _, _; reflexivity.
  - intros r r' Hres Hne. unfold format_and_publish, bind. rewrite Hres.
    destruct (Z.eqb_spec r' 0) as [|_]; [contradiction | reflexivity].
Qed.

End Turn.

(** ** The main loop *)

Definition is_copier_update (e : event) : bool :=
  match e with
  | Run (a :: b :: _) _ => String.eqb a "copier" && String.eqb b "update"
  | _ => false
  end.

Definition is_stage_all (e : event) : bool :=
  match e with
  | Run [a; b; c] _ => String.eqb a "git" && String.eqb b "add" && String.eqb c "."
  | _ => false
  end.

(** What may precede the scaffold update in a turn: no update, no staging
    of everything, no formatting pass, no push, no pull request, no
    checkout, and no commit but the one of [_fix_copier_answers]. *)
Definition quiet (e : event) : Prop :=
  is_copier_update e = false /\ is_stage_all e = false
  /\ is_pre_commit e = false /\ is_push e = false
  /\ is_pr_create e = false /\ is_checkout e = false
  /\ (is_commit e = true -> commit_message e = Some "[FIX] .copier-answers.yml").

(** Every run of the scaffold update in the trace exited with 0. *)
Definition update_succeeded (e : event) : Prop :=
  forall argv rc, e = Run argv rc -> is_copier_update e = true -> rc = 0%Z.

Definition update_notice (repo : string) : string :=
  "$$$$$$$$$$" ++ " " ++ "copier update failed on " ++ repo.

Section MainLoop.
Context {X : Type} `{Collaborators X}.

(** The trace ends with a failed scaffold update, its notice and [tail]. *)
Definition update_failed (repo : string) (tail : list event)
  (o : outcome X unit) : Prop :=
  exists pre rc,
    rc <> 0%Z
    /\ trace o = (pre ++ Run copier_update_cmd rc :: Print (update_notice repo) :: tail)%list
    /\ Forall quiet pre /\ res o = Ok tt.

Definition update_shape (repo : string) (tail : list event)
  (o : outcome X unit) : Prop :=
  Forall update_succeeded (trace o) \/ update_failed repo tail o.

Lemma quiet_update_succeeded e : quiet e -> update_succeeded e.
Proof.
  intros (Hno & _) argv rc _ Hyes. rewrite Hno in Hyes. discriminate.
Qed.

Lemma update_shape_bind {A} repo (m : M X A) (f : A -> M X unit) :
  emits quiet m -> (forall a w, update_shape repo [] (f a w)) ->
  forall w, update_shape repo [] (bind m f w).
Proof.
  intros Hm Hf w. specialize (Hm w). unfold update_shape, update_failed.
  rewrite bind_trace, bind_res.
  destruct (res (m w)) as [a|e].
  - destruct (Hf a (final (m w))) as [Hok|(pre & rc & Hrc & Htr & Hpre & Hres)].
    + left. apply Forall_app. split; [|exact Hok].
      eapply List.Forall_impl; [|exact Hm]. apply quiet_update_succeeded.
    + right. exists (trace (m w) ++ pre)%list, rc. rewrite Htr, app_assoc.
      repeat split; try assumption. apply Forall_app. split; assumption.
  - left. rewrite app_nil_r.
    eapply List.Forall_impl; [|exact Hm]. apply quiet_update_succeeded.
Qed.

Local Ltac quiet_event :=
  repeat split; try reflexivity; try discriminate.

Local Ltac other_command :=
  let Heq := fresh in let Hup := fresh in
  intros ? ? Heq Hup; cbn in Hup; discriminate Hup.

Lemma after_update_succeeded org repo branch skip_ci r :
  emits update_succeeded
    (check_call (["rm"; "-f"] ++ IGNORED_REJ_FILES)%list ;;;
     check_call git_add_all ;;;
     format_and_publish org repo branch skip_ci r).
Proof.
  apply emits_bind; [emits_walk; other_command|]. intros _.
  apply emits_bind; [emits_walk; other_command|]. intros _.
  unfold format_and_publish.
  apply emits_bind; [apply emits_pre_commit_passes; intros; other_command|].
  intros r'. unfold manual_intervention, _make_update_dotfiles_pr,
    _get_update_dotfiles_open_pr, ready_to_publish, commit_if_needed.
  emits_walk; other_command.
Qed.

Lemma update_and_publish_shape org repo branch skip_ci w :
  update_shape repo [] (update_and_publish org repo branch skip_ci w).
Proof.
  unfold update_and_publish. rewrite call_bind. cbn zeta.
  destruct (subprocess copier_update_cmd w) as [rc w1]. cbn [fst snd].
  destruct (Z.eqb_spec rc 0) as [->|Hrc]; cbn [negb].
  - left. cbn [trace]. constructor.
    + intros argv rc [= _ <-] _. reflexivity.
    + apply after_update_succeeded.
  - right. exists [], rc. cbn. repeat split; auto.
Qed.

Lemma in_clone_shape org repo branch name email skip_ci w :
  update_shape repo [] (in_clone org repo branch name email skip_ci w).
Proof.
  rewrite in_clone_split. revert w. apply update_shape_bind.
  { apply emits_setup; intros; quiet_event. }
  intros present. destruct present; cbn [negb].
  - apply update_shape_bind.
    + apply emits_fix_copier_answers; intros; quiet_event.
    + intros _. apply update_and_publish_shape.
  - intros w. left. apply (emits_print update_succeeded). other_command.
Qed.

Lemma iteration_shape org name email skip_ci protocol repo branch w :
  update_shape repo [CloneExit]
    (iteration org name email skip_ci protocol (repo, branch) w).
Proof.
  unfold iteration, except_branch_not_found, with_temporary_clone.
  destruct (clone_enter org repo branch protocol w) as [[e|] w1].
  - left. destruct e; cbn; repeat constructor; other_command.
  - cbn [res trace final].
    destruct (in_clone_shape org repo branch name email skip_ci w1)
      as [Hok|(pre & rc & Hrc & Htr & Hpre & Hres)].
    + left.
      assert (Hall : Forall update_succeeded
                       (CloneEnter org repo branch protocol
                        :: trace (in_clone org repo branch name email skip_ci w1)
                        ++ [CloneExit])).
      { constructor; [other_command|]. apply Forall_app. split; [exact Hok|].
        repeat constructor. other_command. }
      destruct (res (in_clone org repo branch name email skip_ci w1)) as [|[]];
        exact Hall.
    + right. rewrite Hres. cbn [res trace final].
      exists (CloneEnter org repo branch protocol :: pre), rc.
      rewrite Htr, <- app_assoc. cbn [app].
      repeat split; auto. constructor; [quiet_event | exact Hpre].
Qed.

(** A turn that ends without exception hands over to the next one. *)
Lemma main_loop_next org name email skip_ci protocol target rest w :
  res (iteration org name email skip_ci protocol target w) = Ok tt ->
  main_loop org name email skip_ci protocol (target :: rest) w
  = let turn := iteration org name email skip_ci protocol target w in
    let o := main_loop org name email skip_ci protocol rest (final turn) in
    Outcome (res o) (final o) (trace turn ++ trace o).
Proof. intros Hok. cbn [main_loop]. unfold bind. rewrite Hok. reflexivity. Qed.

(** C7.  In a turn in which the scaffold update exits with a code other
    than 0, that exit is followed by the notice and the release of the
    clone and by nothing else; what precedes it holds no staging of all
    changes, no formatting pass, no push, no checkout, no pull request and
    no commit except the one [_fix_copier_answers] may have made before the
    update; the turn ends without exception and the loop goes on with the
    remaining pairs. *)
Theorem update_failure_ends_turn (org git_user_name git_user_email : string)
  (skip_ci : bool) (git_protocol repo branch : string)
  (rest : list (string * string)) (w : world X) (rc : Z) :
  let turn := iteration org git_user_name git_user_email skip_ci git_protocol
                (repo, branch) w in
  In (Run copier_update_cmd rc) (trace turn) -> rc <> 0%Z ->
  (exists pre,
      trace turn = (pre ++ [Run copier_update_cmd rc;
                            Print (update_notice repo); CloneExit])%list
      /\ Forall quiet pre)
  /\ res turn = Ok tt
  /\ main_loop org git_user_name git_user_email skip_ci git_protocol
       ((repo, branch) :: rest) w
     = let o := main_loop org git_user_name git_user_email skip_ci git_protocol
                  rest (final turn) in
       Outcome (res o) (final o) (trace turn ++ trace o).
Proof.
  intros turn Hin Hrc.
  destruct (iteration_shape org git_user_name git_user_email skip_ci
              git_protocol repo branch w)
    as [Hok|(pre & rc' & Hrc' & Htr & Hpre & Hres)]; fold turn in Hok || fold turn in Htr, Hres.
  - rewrite List.Forall_forall in Hok.
    specialize (Hok _ Hin _ _ eq_refl eq_refl). contradiction.
  - assert (rc' = rc) as ->.
    { rewrite Htr in Hin. apply in_app_or in Hin as [Hin|[Hin|[Hin|[Hin|[]]]]];
        try discriminate; [|congruence].
      rewrite List.Forall_forall in Hpre. destruct (Hpre _ Hin) as (Hno & _).
      discriminate Hno. }
    split; [exists pre; split; assumption|]. split; [exact Hres|].
    apply main_loop_next. exact Hres.
Qed.

(** The statement that every pair gets its turn: whatever happens in the
    turns before it, its clone is at least attempted. *)
Definition failures_isolated (org git_user_name git_user_email : string)
  (skip_ci : bool) (git_protocol : string) (targets : list (string * string))
  (w : world X) : Prop :=
  forall repo branch,
    In (repo, branch) targets ->
    In (CloneEnter org repo branch git_protocol)
      (trace (main_loop org git_user_name git_user_email skip_ci git_protocol
                targets w)).

(** C3, as amended.  Of the exceptions raised inside a turn of the loop
    only [BranchNotFoundError] is caught: a turn whose block ends normally
    (also through a [continue]) or with [BranchNotFoundError] is followed
    by the turns of the remaining pairs; any other exception leaves the
    loop at once, as the result of the run.  When the clone reports the
    branch as missing, the turn consists of the attempt to clone alone:
    nothing is printed and no command runs. *)
Theorem only_branch_not_found_is_swallowed (org git_user_name
  git_user_email : string) (skip_ci : bool) (git_protocol repo branch : string)
  (rest : list (string * string)) (w : world X) :
  let block := with_temporary_clone org repo branch git_protocol
                 (in_clone org repo branch git_user_name git_user_email skip_ci)
                 w in
  let run := main_loop org git_user_name git_user_email skip_ci git_protocol
               ((repo, branch) :: rest) w in
  (res block = Ok tt \/ res block = Raise BranchNotFoundError ->
   run = let o := main_loop org git_user_name git_user_email skip_ci
                    git_protocol rest (final block) in
         Outcome (res o) (final o) (trace block ++ trace o))
  /\ (forall e, res block = Raise e -> e <> BranchNotFoundError ->
        run = Outcome (Raise e) (final block) (trace block))
  /\ ((clone_enter org repo branch git_protocol w).1 = Some BranchNotFoundError ->
      trace block = [CloneEnter org repo branch git_protocol]
      /\ res block = Raise BranchNotFoundError).
Proof.
  intros block run. subst run block. cbn [main_loop].
  unfold bind, iteration, except_branch_not_found.
  split; [|split].
  - destruct (with_temporary_clone _ _ _ _ _ w) as [r wf tr]. cbn [res final trace].
    intros [->| ->]; reflexivity.
  - destruct (with_temporary_clone _ _ _ _ _ w) as [r wf tr]. cbn [res final trace].
    intros e -> Hne. destruct e; try reflexivity. contradiction.
  - intros Hmissing. unfold with_temporary_clone.
    destruct (clone_enter org repo branch git_protocol w) as [failure w1].
    cbn in Hmissing. subst failure. split; reflexivity.
Qed.

End MainLoop.

(** ** Runs in the simulated world *)

(** The defaults of [--git-user-name] and [--git-user-email]. *)
Definition bot_name : string := "oca-git-bot".
Definition bot_email : string := "oca-git-bot@odoo-community.org".

Ltac among := vm_compute; repeat (first [left; reflexivity | right]).

Definition answers_null : gmap string string :=
  {[ ".copier-answers.yml" := "repo_name: web
repo_description: null
" ]}.

(** The formatter fails twice, then succeeds; and fails three times. *)
Definition w_110 : world sim :=
  sim_world [(pre_commit_cmd, [1; 1; 0]%Z)] [] [] answers_null true.
Definition w_111 : world sim :=
  sim_world [(pre_commit_cmd, [1; 1; 1]%Z)] [] [] answers_null true.


(** The API lists a closed pull request before an open one. *)
Definition w_closed_then_open : world sim :=
  sim_world []
    [ {| pr_state := "closed"; pr_number := 12 |};
      {| pr_state := "open"; pr_number := 15 |} ] [] ∅ true.




Definition closed_then_open : response :=
  {| status_code := 200;
     json := [ {| pr_state := "closed"; pr_number := 12 |};
               {| pr_state := "open"; pr_number := 15 |} ] |}.

Lemma open_pr_lookup_simulated :
  requests_get (pulls_url "OCA" "web" "16.0") w_closed_then_open
  = (Ok closed_then_open, w_closed_then_open)
  /\ ~ (400 <= status_code closed_then_open < 600)%Z
  /\ res (_get_update_dotfiles_open_pr "OCA" "web" "16.0" w_closed_then_open) = Ok None.
Proof.
  assert (Hget : requests_get (pulls_url "OCA" "web" "16.0") w_closed_then_open
                 = (Ok closed_then_open, w_closed_then_open)) by reflexivity.
  assert (Hok : ~ (400 <= status_code closed_then_open < 600)%Z) by (cbn; lia).
  split; [exact Hget|]. split; [exact Hok|].
  apply (proj2 (open_pr_lookup_first_only "OCA" "web" "16.0"
                  w_closed_then_open w_closed_then_open closed_then_open Hget Hok)).
  right. eexists _, _. split; [reflexivity | discriminate].
Defined.

(** [git config user.name] fails in the first turn. *)
Definition w_config_fails : world sim :=
  sim_world [(["git"; "config"; "user.name"; "oca-git-bot"], [1]%Z)] [] []
    answers_null true.

(** C3, the statement as it stands fails: a command that fails in the
    turn of the first pair ends the run with its exception, and the second
    pair is never cloned. *)
Lemma failed_command_stops_the_run :
  res (main "OCA" "web,server-tools" "16.0" bot_name bot_email false "git"
         w_config_fails)
  = Raise (CalledProcessError 1 ["git"; "config"; "user.name"; "oca-git-bot"])
  /\ trace (main "OCA" "web,server-tools" "16.0" bot_name bot_email false "git"
              w_config_fails)
     = [CloneEnter "OCA" "web" "16.0" "git";
        Print "========== web 16.0 ==========";
        Run ["git"; "config"; "user.name"; "oca-git-bot"] 1;
        CloneExit]
  /\ (failures_isolated "OCA" bot_name bot_email false "git"
        [("web", "16.0"); ("server-tools", "16.0")] w_config_fails -> False).
Proof.
  split; [vm_compute; reflexivity|]. split; [vm_compute; reflexivity|].
  intros Hall. specialize (Hall "server-tools" "16.0" ltac:(right; left; reflexivity)).
  vm_compute in Hall. intuition discriminate.
Qed.

(** The branch of the first pair is missing on the remote. *)
Definition w_missing_branch : world sim :=
  sim_world [] [] ["15.0"] answers_null false.

Lemma missing_branch_simulated :
  (clone_enter "OCA" "web" "15.0" "git" w_missing_branch).1
  = Some BranchNotFoundError
  /\ trace (with_temporary_clone "OCA" "web" "15.0" "git"
              (in_clone "OCA" "web" "15.0" bot_name bot_email false) w_missing_branch)
     = [CloneEnter "OCA" "web" "15.0" "git"]
  /\ res (with_temporary_clone "OCA" "web" "15.0" "git"
            (in_clone "OCA" "web" "15.0" bot_name bot_email false) w_missing_branch)
     = Raise BranchNotFoundError.
Proof.
  assert (Hmissing : (clone_enter "OCA" "web" "15.0" "git" w_missing_branch).1
                     = Some BranchNotFoundError) by reflexivity.
  split; [exact Hmissing|].
  exact (proj2 (proj2 (only_branch_not_found_is_swallowed "OCA" bot_name bot_email
                         false "git" "web" "15.0" [("web", "16.0")]
                         w_missing_branch)) Hmissing).
Defined.

Lemma iterator_cross_product_simulated :
  " web, ,server-tools ," <> ":all:"
  /\ _iterate_repos_and_branches " web, ,server-tools ," "16.0,, 17.0 " w_110
     = Outcome (Ok [("web", "16.0"); ("web", "17.0");
                    ("server-tools", "16.0"); ("server-tools", "17.0")]) w_110 [].
Proof.
  assert (Hsel : " web, ,server-tools ," <> ":all:") by discriminate.
  split; [exact Hsel|].
  exact (proj1 (iterator_cross_product " web, ,server-tools ," "16.0,, 17.0 "
                  w_110 Hsel)).
Defined.

(** A clone whose answers file holds the null description. *)
Definition w_null_description : world sim :=
  World answers_null (ext w_110).

Lemma sim_keeps_files argv (w : world sim) p :
  files (subprocess argv w).2 !! p = files w !! p.
Proof.
  cbn. destruct (next_code argv (sim_codes (ext w))). reflexivity.
Qed.

Lemma answers_fix_simulated :
  (forall argv (w' : world sim), hd_error argv = Some "git" ->
     files (subprocess argv w').2 !! answers_path = files w' !! answers_path)
  /\ trace (_fix_copier_answers w_null_description)
     = [WriteText ".copier-answers.yml"
          (fix_answers_text "repo_name: web
repo_description: null
");
        Run ["git"; "add"; ".copier-answers.yml"] 0;
        Run ["git"; "commit"; "-m"; "[FIX] .copier-answers.yml"] 0]
  /\ _fix_copier_answers (final (_fix_copier_answers w_null_description))
     = Outcome (Ok tt) (final (_fix_copier_answers w_null_description)) [].
Proof.
  assert (Hframe : forall argv (w' : world sim), hd_error argv = Some "git" ->
     files (subprocess argv w').2 !! answers_path = files w' !! answers_path).
  { intros argv w' _. apply sim_keeps_files. }
  split; [exact Hframe|]. split; [vm_compute; reflexivity|].
  exact (proj2 (proj2 (proj2 (proj2 (answers_fix_idempotent w_null_description))) Hframe)).
Defined.

(** Nothing differs from HEAD after the formatting. *)
Definition w_clean : world sim := sim_world [] [] [] answers_null false.

Lemma push_simulated :
  changes_vs_head ["."] w_clean = false
  /\ commit_if_needed ["."] (_make_commit_msg true) w_clean
     = Outcome (Ok false) w_clean []
  /\ ready_to_publish true w_clean = Outcome (Ok tt) w_clean [].
Proof.
  assert (Hclean : changes_vs_head ["."] w_clean = false) by reflexivity.
  split; [exact Hclean|].
  exact (proj1 (push_exactly_after_commit true w_clean) Hclean).
Defined.

(** The scaffold update exits with 2. *)
Definition w_update_fails : world sim :=
  sim_world [(copier_update_cmd, [2]%Z)] [] [] answers_null true.

Lemma update_failure_simulated :
  In (Run copier_update_cmd 2)
    (trace (iteration "OCA" bot_name bot_email false "git" ("web", "16.0")
              w_update_fails))
  /\ 2%Z <> 0%Z
  /\ res (iteration "OCA" bot_name bot_email false "git" ("web", "16.0")
            w_update_fails) = Ok tt.
Proof.
  assert (Hin : In (Run copier_update_cmd 2)
    (trace (iteration "OCA" bot_name bot_email false "git" ("web", "16.0")
              w_update_fails))) by among.
  assert (Hrc : 2%Z <> 0%Z) by discriminate.
  split; [exact Hin|]. split; [exact Hrc|].
  exact (proj1 (proj2 (update_failure_ends_turn "OCA" bot_name bot_email false
                         "git" "web" "16.0" [("web", "17.0")] w_update_fails 2
                         Hin Hrc))).
Defined.

(** * Further properties of the script *)

(** ** Names: the pull-request branch, and what the iterator yields *)

Module Names.
Import PyStr PyStrFacts.

(** [sep.join(fields)] *)
Fixpoint join (sep : ascii) (fields : list string) : string :=
  match fields with
  | [] => EmptyString
  | [field] => field
  | field :: rest => field ++ String sep (join sep rest)
  end.

Definition leading_space (s : string) : bool :=
  match s with
  | EmptyString => false
  | String c _ => is_space c
  end.

Fixpoint trailing_space (s : string) : bool :=
  match s with
  | EmptyString => false
  | String c EmptyString => is_space c
  | String _ s' => trailing_space s'
  end.

(** A name as the script hands it to git and to the hosting API: not
    empty, no whitespace at either end, no comma inside. *)
Definition tidy (s : string) : Prop :=
  is_empty s = false /\ leading_space s = false /\ trailing_space s = false.

Lemma length_append (a b : string) :
  String.length (a ++ b) = String.length a + String.length b.
Proof. induction a as [|c a IH]; simpl; [reflexivity | rewrite IH; reflexivity]. Qed.

Lemma append_cancel_r (a b s : string) : a ++ s = b ++ s -> a = b.
Proof.
  revert b. induction a as [|c a IH]; intros [|d b] Heq; cbn in Heq.
  - reflexivity.
  - apply (f_equal String.length) in Heq. simpl in Heq.
    rewrite !length_append in Heq. simpl in Heq. lia.
  - apply (f_equal String.length) in Heq. simpl in Heq.
    rewrite !length_append in Heq. simpl in Heq. lia.
  - injection Heq as -> Heq. f_equal. apply IH, Heq.
Qed.

(** X1.  Different base branches get different pull-request branches, and
    the pull-request branch is never the base branch itself. *)
Theorem update_dotfiles_branch_distinct (branch other : string) :
  (_make_update_dotfiles_branch branch = _make_update_dotfiles_branch other ->
   branch = other)
  /\ _make_update_dotfiles_branch branch <> branch.
Proof.
  unfold _make_update_dotfiles_branch. split; [apply append_cancel_r|].
  intros Heq. apply (f_equal String.length) in Heq.
  rewrite length_append in Heq. simpl in Heq. lia.
Qed.

Lemma lstrip_leading s : leading_space (lstrip s) = false.
Proof.
  induction s as [|c s IH]; cbn; [reflexivity|].
  destruct (is_space c) eqn:Hc; [exact IH | cbn; exact Hc].
Qed.

Lemma rstrip_head c s :
  is_space c = false -> exists t, rstrip (String c s) = String c t.
Proof.
  intros Hc. cbn. destruct (rstrip s); [rewrite Hc|]; eauto.
Qed.

Lemma rstrip_leading s : leading_space s = false -> leading_space (rstrip s) = false.
Proof.
  destruct s as [|c s]; [reflexivity|]. cbn [leading_space]. intros Hc.
  destruct (rstrip_head c s Hc) as [t ->]. exact Hc.
Qed.

Lemma rstrip_trailing s : trailing_space (rstrip s) = false.
Proof.
  induction s as [|c s IH]; [reflexivity|]. cbn [rstrip].
  destruct (rstrip s) as [|d t] eqn:Hr.
  - destruct (is_space c) eqn:Hc; [reflexivity | cbn; exact Hc].
  - exact IH.
Qed.

Lemma strip_tidy s : is_empty (strip s) = false -> tidy (strip s).
Proof.
  intros Hne. split; [exact Hne|]. unfold strip. split.
  - apply rstrip_leading, lstrip_leading.
  - apply rstrip_trailing.
Qed.

Lemma lstrip_has_char q s : has_char q (lstrip s) = true -> has_char q s = true.
Proof.
  induction s as [|c s IH]; cbn; [auto|].
  destruct (is_space c); [|auto]. intros Hq. rewrite (IH Hq). apply orb_true_r.
Qed.

Lemma rstrip_has_char q s : has_char q (rstrip s) = true -> has_char q s = true.
Proof.
  induction s as [|c s IH]; [auto|]. cbn [rstrip].
  destruct (rstrip s) as [|d t].
  - destruct (is_space c); cbn; [discriminate|].
    rewrite orb_false_r. intros ->. reflexivity.
  - cbn [has_char] in *. intros [->|Hq]%orb_true_iff; [reflexivity|].
    rewrite (IH Hq). apply orb_true_r.
Qed.

Lemma strip_has_char q s : has_char q (strip s) = true -> has_char q s = true.
Proof. intros Hq. apply lstrip_has_char, rstrip_has_char, Hq. Qed.

Lemma split_not_nil sep s : split sep s <> [].
Proof.
  destruct s as [|c s]; cbn; [discriminate|].
  destruct (Ascii.eqb c sep); [discriminate|]. destruct (split sep s); discriminate.
Qed.

Lemma split_fields_clean sep s field :
  In field (split sep s) -> has_char sep field = false.
Proof.
  revert field. induction s as [|c s IH]; intros field; cbn [split].
  - intros [<-|[]]. reflexivity.
  - destruct (Ascii.eqb c sep) eqn:Hc.
    + intros [<-|Hin]; [reflexivity | apply IH, Hin].
    + pose proof (split_not_nil sep s) as Hnil.
      destruct (split sep s) as [|f fs]; [contradiction|].
      intros [<-|Hin].
      * cbn. rewrite Hc. apply IH. left. reflexivity.
      * apply IH. right. exact Hin.
Qed.

(** X15.  The comma-split loses nothing and cuts at every comma: joining
    the fields with the separator gives the string back, no field holds
    the separator, and there is always at least one field. *)
Theorem split_join_round_trip (sep : ascii) (s : string) :
  join sep (split sep s) = s
  /\ split sep s <> []
  /\ forall field, In field (split sep s) -> has_char sep field = false.
Proof.
  split; [|split; [apply split_not_nil | apply split_fields_clean]].
  induction s as [|c s IH]; [reflexivity|]. cbn [split].
  pose proof (split_not_nil sep s) as Hnil.
  destruct (Ascii.eqb_spec c sep) as [->|Hne].
  - destruct (split sep s) as [|f fs]; [contradiction|].
    cbn [join] in *. rewrite IH. reflexivity.
  - destruct (split sep s) as [|f fs]; [contradiction|].
    change (join sep (String c f :: fs)) with
      (match fs with [] => String c f | _ => String c f ++ String sep (join sep fs) end).
    rewrite <- IH. destruct fs; reflexivity.
Qed.

End Names.

(** ** The iterator and the fixer, further *)

Section IteratorAndFixer.
Context {X : Type} `{Collaborators X}.

Lemma iterate_repos_origin all_repos branches repo branch :
  In (repo, branch) (iterate_repos all_repos branches) ->
  (exists f, In f all_repos /\ repo = PyStr.strip f /\ PyStr.is_empty repo = false)
  /\ (exists g, In g (PyStr.split "," branches) /\ branch = PyStr.strip g
                /\ PyStr.is_empty branch = false).
Proof.
  rewrite PyStrFacts.iterate_repos_product. unfold trimmed_nonempty_split.
  intros [Hr Hb]%in_prod_iff.
  apply filter_In in Hr as [Hr Hre]. apply filter_In in Hb as [Hb Hbe].
  apply in_map_iff in Hr as (f & <- & Hf). apply in_map_iff in Hb as (g & <- & Hg).
  apply negb_true_iff in Hre, Hbe. split; eauto.
Qed.

(** X2.  Every pair the iterator yields is made of names that are not
    empty and carry no whitespace at either end; the branch holds no
    comma, and neither does the repository when it comes from the
    selector rather than from the registry. *)
Theorem iterator_yields_tidy_names (repos branches : string) (w : world X)
  (pairs : list (string * string)) (repo branch : string) :
  res (_iterate_repos_and_branches repos branches w) = Ok pairs ->
  In (repo, branch) pairs ->
  Names.tidy repo /\ Names.tidy branch
  /\ PyStrFacts.has_char "," branch = false
  /\ (repos <> ":all:" -> PyStrFacts.has_char "," repo = false).
Proof.
  unfold _iterate_repos_and_branches. rewrite bind_res.
  set (resolved := (if String.eqb repos ":all:" then registry
                    else ret (PyStr.split "," repos)) w).
  destruct (res resolved) as [all_repos|e] eqn:Hres; [|discriminate].
  cbn. intros [= <-] Hin.
  apply iterate_repos_origin in Hin
    as [(f & Hf & -> & Hfe) (g & Hg & -> & Hge)].
  split; [apply Names.strip_tidy, Hfe|]. split; [apply Names.strip_tidy, Hge|].
  split.
  - destruct (PyStrFacts.has_char "," (PyStr.strip g)) eqn:Hc; [|reflexivity].
    apply Names.strip_has_char in Hc.
    rewrite (Names.split_fields_clean _ _ _ Hg) in Hc. discriminate.
  - intros Hsel. subst resolved.
    destruct (String.eqb_spec repos ":all:") as [|_]; [contradiction|].
    cbn in Hres. injection Hres as <-.
    destruct (PyStrFacts.has_char "," (PyStr.strip f)) eqn:Hc; [|reflexivity].
    apply Names.strip_has_char in Hc.
    rewrite (Names.split_fields_clean _ _ _ Hf) in Hc. discriminate.
Qed.

(** X3.  For the selector ":all:" the iterator asks the registry, once and
    before anything else: a failure of the registry is the failure of the
    iterator, and the names it returns are trimmed, the blank ones dropped,
    and crossed with the branches in the order of the registry. *)
Theorem iterator_all_asks_registry (branches : string) (w : world X) :
  _iterate_repos_and_branches ":all:" branches w
  = let asked := get_repositories w in
    Outcome
      match asked.1 with
      | Ok names =>
          Ok (list_prod
                (List.filter (fun x => negb (PyStr.is_empty x))
                   (List.map PyStr.strip names))
                (trimmed_nonempty_split branches))
      | Raise e => Raise e
      end
      asked.2 [ListRepositories].
Proof.
  unfold _iterate_repos_and_branches, bind, registry. cbn.
  destruct (get_repositories w) as [[names|e] w']; cbn; [|reflexivity].
  rewrite PyStrFacts.iterate_repos_product. reflexivity.
Qed.

Lemma list_prod_nil_r {A B} (l : list A) : list_prod l (@nil B) = [].
Proof. induction l as [|a l IH]; [reflexivity | exact IH]. Qed.

(** X4.  A selector or a branch list without a single non-blank entry
    makes [main] return at once: no clone, no command, no output. *)
Theorem blank_selector_does_nothing (org repos branches git_user_name
  git_user_email : string) (skip_ci : bool) (git_protocol : string)
  (w : world X) :
  repos <> ":all:" ->
  trimmed_nonempty_split repos = [] \/ trimmed_nonempty_split branches = [] ->
  main org repos branches git_user_name git_user_email skip_ci git_protocol w
  = Outcome (Ok tt) w [].
Proof.
  intros Hsel Hblank. unfold main, _iterate_repos_and_branches.
  destruct (String.eqb_spec repos ":all:") as [|_]; [contradiction|].
  unfold bind, ret. cbn. rewrite PyStrFacts.iterate_repos_product.
  change (List.filter _ (List.map PyStr.strip (PyStr.split "," repos)))
    with (trimmed_nonempty_split repos).
  destruct Hblank as [-> | ->]; [|rewrite list_prod_nil_r]; reflexivity.
Qed.

(** X5.  After the rewrite the text holds no "repo_description: null" any
    more, and the rewrite changes a text exactly when it holds one. *)
Theorem fix_answers_text_clears (text : string) :
  PyStrFacts.occurs_in "repo_description: null" (fix_answers_text text) = false
  /\ (fix_answers_text text = text <->
      PyStrFacts.occurs_in "repo_description: null" text = false).
Proof.
  assert (Hclear : forall t,
    PyStrFacts.occurs_in "repo_description: null" (fix_answers_text t) = false).
  { intros t. unfold fix_answers_text, PyStr.replace.
    apply (PyStrFacts.replace_scan_no_occurrence PyStrFacts.dq); try reflexivity.
    - apply PyStrFacts.answers_new_prefix.
    - apply PyStrFacts.answers_new_fresh. }
  split; [apply Hclear|]. split.
  - intros Hsame. rewrite <- Hsame. apply Hclear.
  - intros Hno. unfold fix_answers_text, PyStr.replace.
    apply PyStrFacts.replace_scan_fixed, Hno.
Qed.

(** X6.  When the staging of the rewritten answers file fails, the fixer
    raises for [git add] after it has written the file and before any
    commit; where git leaves the file alone, the next run then finds
    nothing to rewrite, so the rewrite stays uncommitted. *)
Theorem answers_fix_staging_failure (w : world X) (text : string) :
  let rewritten := World (<[answers_path := fix_answers_text text]> (files w))
                     (ext w) in
  let staged := subprocess ["git"; "add"; ".copier-answers.yml"] rewritten in
  files w !! answers_path = Some text ->
  fix_answers_text text <> text ->
  staged.1 <> 0%Z ->
  _fix_copier_answers w
  = Outcome (Raise (CalledProcessError staged.1 ["git"; "add"; ".copier-answers.yml"]))
      staged.2
      [WriteText answers_path (fix_answers_text text);
       Run ["git"; "add"; ".copier-answers.yml"] staged.1]
  /\ (files staged.2 !! answers_path = files rewritten !! answers_path ->
      _fix_copier_answers staged.2 = Outcome (Ok tt) staged.2 []).
Proof.
  intros rewritten staged Hfile Hdiff Hrc. split.
  - rewrite fix_copier_answers_outcome, Hfile.
    destruct (String.eqb_spec (fix_answers_text text) text) as [|_]; [contradiction|].
    cbn zeta. fold rewritten. fold staged.
    destruct (Z.eqb_spec staged.1 0) as [|_]; [contradiction|]. reflexivity.
  - intros Hkept. rewrite fix_copier_answers_outcome, Hkept.
    subst rewritten. cbn [files]. rewrite lookup_insert_eq.
    rewrite PyStrFacts.fix_answers_text_twice, String.eqb_refl. reflexivity.
Qed.

End IteratorAndFixer.

(** ** The pull-request path, further *)

Section PullRequestPath.
Context {X : Type} `{Collaborators X}.

(** The four git commands of [_make_update_dotfiles_pr], all with exit
    code 0. *)
Definition pr_branch_pushed (branch : string) : list event :=
  [Run ["git"; "checkout"; "-B"; _make_update_dotfiles_branch branch] 0;
   Run ["git"; "add"; "."] 0;
   Run ["git"; "commit"; "-m"; _make_commit_msg false] 0;
   Run ["git"; "push"; "-f"; "origin"; _make_update_dotfiles_branch branch] 0].

(** The answer of the API is a failure: no answer, or an error status. *)
Definition query_failed (a : result response) : Prop :=
  match a with
  | Raise _ => True
  | Ok r => (400 <= status_code r < 600)%Z
  end.

Definition query_error (a : result response) : exn :=
  match a with
  | Raise e => e
  | Ok r => HTTPError (status_code r)
  end.

(** What the query and the creation leave behind, given the answer. *)
Definition after_query (org repo branch : string) (a : result response)
  (r : result unit) (rest : list event) : Prop :=
  (query_failed a /\ r = Raise (query_error a) /\ rest = [])
  \/ (exists got, a = Ok got /\ ~ (400 <= status_code got < 600)%Z
        /\ truthy (first_open (json got)) = true /\ r = Ok tt /\ rest = [])
  \/ (exists got rc, a = Ok got /\ ~ (400 <= status_code got < 600)%Z
        /\ truthy (first_open (json got)) = false
        /\ rest = [Run (gh_pr_create org repo branch) rc]
        /\ r = if (rc =? 0)%Z then Ok tt
               else Raise (CalledProcessError rc (gh_pr_create org repo branch))).

Lemma query_and_create_outcome org repo branch w :
  (pr <- _get_update_dotfiles_open_pr org repo branch ;;
   if negb (truthy pr) then check_call (gh_pr_create org repo branch)
   else ret tt) w
  = let url := pulls_url org repo branch in
    let asked := requests_get url w in
    match asked.1 with
    | Raise e => Outcome (Raise e) asked.2 [Get url (Raise e)]
    | Ok got =>
        if ((400 <=? status_code got) && (status_code got <? 600))%Z then
          Outcome (Raise (HTTPError (status_code got))) asked.2 [Get url (Ok got)]
        else if truthy (first_open (json got)) then
          Outcome (Ok tt) asked.2 [Get url (Ok got)]
        else
          let made := subprocess (gh_pr_create org repo branch) asked.2 in
          Outcome (if (made.1 =? 0)%Z then Ok tt
                   else Raise (CalledProcessError made.1
                                 (gh_pr_create org repo branch)))
            made.2
            [Get url (Ok got); Run (gh_pr_create org repo branch) made.1]
    end.
Proof.
  unfold bind. rewrite open_pr_lookup_outcome. cbn zeta. cbn [res trace final].
  destruct (requests_get (pulls_url org repo branch) w) as [[got|e] w1];
    cbn [fst snd]; [|reflexivity].
  destruct (_ && _); [reflexivity|].
  destruct (truthy (first_open (json got))); cbn [negb]; [reflexivity|].
  rewrite check_call_last. reflexivity.
Qed.

Lemma query_and_create_cases org repo branch w :
  let o := (pr <- _get_update_dotfiles_open_pr org repo branch ;;
            if negb (truthy pr) then check_call (gh_pr_create org repo branch)
            else ret tt) w in
  exists a rest,
    trace o = Get (pulls_url org repo branch) a :: rest
    /\ after_query org repo branch a (res o) rest.
Proof.
  cbn zeta. rewrite query_and_create_outcome. cbn zeta.
  destruct (requests_get (pulls_url org repo branch) w) as [[got|e] w1]; cbn [fst snd].
  - destruct (_ && _) eqn:Hst.
    + apply andb_true_iff in Hst as [Hlo%Z.leb_le Hhi%Z.ltb_lt].
      exists (Ok got), []. split; [reflexivity|]. left.
      split; [split; assumption|]. split; reflexivity.
    + assert (Hok : ~ (400 <= status_code got < 600)%Z).
      { intros [Hlo Hhi].
        apply andb_false_iff in Hst as [Hst%Z.leb_gt|Hst%Z.ltb_ge]; lia. }
      destruct (truthy (first_open (json got))) eqn:Htr.
      * exists (Ok got), []. split; [reflexivity|]. right; left. eauto 10.
      * eexists (Ok got), _. split; [reflexivity|].
        right; right. eexists got, _. repeat split; auto.
  - exists (Raise e), []. split; [reflexivity|]. left. cbn. auto.
Qed.

(** Every run of [_make_update_dotfiles_pr]: a git command fails and
    nothing but git commands ran, or the four of them succeeded and the
    query follows. *)
Lemma make_pr_cases org repo branch w :
  let o := _make_update_dotfiles_pr org repo branch w in
  (Forall (fun e => is_git e = true) (trace o)
   /\ exists rc argv, rc <> 0%Z /\ res o = Raise (CalledProcessError rc argv))
  \/ exists a rest,
       trace o = (pr_branch_pushed branch
                  ++ Get (pulls_url org repo branch) a :: rest)%list
       /\ after_query org repo branch a (res o) rest.
Proof.
  cbn zeta. unfold _make_update_dotfiles_pr. cbn zeta.
  set (q := bind (_get_update_dotfiles_open_pr org repo branch) _).
  pose proof (query_and_create_cases org repo branch) as Hq. cbn zeta in Hq.
  fold q in Hq. clearbody q.
  repeat (rewrite check_call_bind; cbn zeta;
          match goal with
          | |- context [(?c =? 0)%Z] => destruct (Z.eqb_spec c 0) as [->|?]
          end; cbn [trace res]).
  2-5: left; split; [repeat constructor | eauto].
  right. match goal with |- context [q ?w'] =>
    destruct (Hq w') as (a & rest & Htr & Hafter) end.
  exists a, rest. rewrite Htr. split; [reflexivity | exact Hafter].
Qed.


(** X8.  When the query for open pull requests fails, by itself or with
    an error status, [_make_update_dotfiles_pr] ends with that failure, an
    [HTTPError] for an error status, and creates no pull request. *)
Theorem failed_query_creates_no_pr (org repo branch : string) (w : world X)
  (url : string) (a : result response) :
  let o := _make_update_dotfiles_pr org repo branch w in
  In (Get url a) (trace o) -> query_failed a ->
  res o = Raise (query_error a)
  /\ forall e, In e (trace o) -> is_pr_create e = false.
Proof.
  intros o Hin Hfailed. subst o.
  destruct (make_pr_cases org repo branch w)
    as [[Hgit _]|(a' & rest & Htr & Hafter)].
  - rewrite List.Forall_forall in Hgit. apply Hgit in Hin. discriminate.
  - rewrite Htr in Hin |- *.
    assert (a' = a) as ->.
    { apply in_app_or in Hin as [Hin|[Hin|Hin]].
      - cbn in Hin. intuition discriminate.
      - congruence.
      - destruct Hafter as [(_ & _ & ->)|[(? & _ & _ & _ & _ & ->)
                                        |(? & ? & _ & _ & _ & -> & _)]];
          cbn in Hin; intuition discriminate. }
    destruct Hafter as [(_ & Hres & ->)|[(got & -> & Hok & _)
                                        |(got & rc & -> & Hok & _)]];
      [|contradiction..].
    split; [exact Hres|]. intros e He.
    apply in_app_or in He as [He|[<-|[]]]; [|reflexivity].
    cbn in He. intuition subst; reflexivity.
Qed.

End PullRequestPath.

(** ** One turn of the loop, further *)

(** [emits_walk] with the blocks of a turn opened up. *)
Ltac turn_walk :=
  unfold update_and_publish, format_and_publish, manual_intervention,
    _make_update_dotfiles_pr, _get_update_dotfiles_open_pr, ready_to_publish,
    commit_if_needed, _fix_copier_answers, setup;
  repeat (cbn beta;
    lazymatch goal with
    | |- emits _ (bind _ _) => apply emits_bind; [|intros ?]
    | |- emits _ (if _ then _ else _) => apply emits_if
    | |- emits _ (match ?x with _ => _ end) => destruct x
    | |- emits _ (ret _) => apply emits_ret
    | |- emits _ (raise _) => apply emits_raise
    | |- emits _ (check_call _) => apply emits_check_call; intros ?
    | |- emits _ (call _) => apply emits_call; intros ?
    | |- emits _ (print _) => apply emits_print
    | |- emits _ (path_exists _) => apply emits_path_exists
    | |- emits _ (read_text _) => apply emits_read_text
    | |- emits _ (write_text _ _) => apply emits_write_text
    | |- emits _ (get _) => apply emits_get; intros ?
    | |- emits _ (raise_for_status _) => apply emits_raise_for_status
    | |- emits _ (has_changes _) => apply emits_has_changes
    | |- emits _ (pre_commit_passes _ _) => apply emits_pre_commit_passes; intros ?
    end).

Definition skip_notice (repo : string) : string :=
  "Skipping " ++ repo ++ " because it has no .copier-answers.yml".

Definition is_git_config (e : event) : bool :=
  match e with
  | Run (a :: b :: _) _ => String.eqb a "git" && String.eqb b "config"
  | _ => false
  end.

(** The events that publish or prepare to publish. *)
Definition is_publishing (e : event) : bool :=
  is_stage_all e || is_pre_commit e || is_push e || is_checkout e
  || is_pr_create e.

Section TurnInvariants.
Context {X : Type} `{Collaborators X}.

(** A property of result and trace that holds for the rest of a block
    holds for the block, when it survives a prefix of [P]-events and holds
    wherever a run of [P]-events ends in an exception. *)
Lemma shape_bind {A B} (P : event -> Prop)
  (shape : result B -> list event -> Prop) (m : M X A) (f : A -> M X B) :
  (forall pre r tr, Forall P pre -> shape r tr -> shape r (pre ++ tr)%list) ->
  (forall e tr, Forall P tr -> shape (Raise e) tr) ->
  emits P m -> (forall a w, shape (res (f a w)) (trace (f a w))) ->
  forall w, shape (res (bind m f w)) (trace (bind m f w)).
Proof.
  intros Hpre Hraise Hm Hf w. rewrite bind_res, bind_trace. specialize (Hm w).
  destruct (res (m w)) as [a|e].
  - apply Hpre; [exact Hm | apply Hf].
  - rewrite app_nil_r. apply Hraise, Hm.
Qed.

(** A turn, in terms of the block under [with]. *)
Lemma iteration_outcome org name email skip_ci protocol repo branch w :
  iteration org name email skip_ci protocol (repo, branch) w
  = let entered := clone_enter org repo branch protocol w in
    match entered.1 with
    | Some e =>
        Outcome match e with BranchNotFoundError => Ok tt | _ => Raise e end
          entered.2 [CloneEnter org repo branch protocol]
    | None =>
        let o := in_clone org repo branch name email skip_ci entered.2 in
        Outcome match res o with
                | Raise BranchNotFoundError => Ok tt
                | r => r
                end
          (clone_exit (final o))
          (CloneEnter org repo branch protocol :: trace o ++ [CloneExit])
    end.
Proof.
  unfold iteration, except_branch_not_found, with_temporary_clone. cbn zeta.
  destruct (clone_enter org repo branch protocol w) as [[e|] w1]; cbn [fst snd].
  - destruct e; reflexivity.
  - cbn [res final trace].
    destruct (res (in_clone org repo branch name email skip_ci w1)) as [[]|[]];
      reflexivity.
Qed.

(** *** No answers file *)

Definition before_skip (repo : string) (e : event) : Prop :=
  (is_git_config e = true \/ exists line, e = Print line)
  /\ e <> Print (skip_notice repo).

Definition skip_shape (repo : string) (r : result unit) (tr : list event) : Prop :=
  Forall (fun e => e <> Print (skip_notice repo)) tr
  \/ (r = Ok tt
      /\ exists pre, tr = (pre ++ [Print (skip_notice repo)])%list
                     /\ Forall (before_skip repo) pre).

Local Ltac other_event :=
  let Heq := fresh in intros Heq; cbn in Heq; discriminate Heq.

Lemma in_clone_skip_shape org repo branch name email skip_ci w :
  skip_shape repo (res (in_clone org repo branch name email skip_ci w))
    (trace (in_clone org repo branch name email skip_ci w)).
Proof.
  rewrite in_clone_split. revert w.
  apply (shape_bind (before_skip repo)).
  - intros pre r tr Hpre [Hno|(Hr & pre' & -> & Hpre')].
    + left. apply Forall_app. split; [|exact Hno].
      eapply List.Forall_impl; [|exact Hpre]. intros e [_ He]. exact He.
    + right. split; [exact Hr|]. exists (pre ++ pre')%list.
      rewrite app_assoc. split; [reflexivity|]. apply Forall_app. split; assumption.
  - intros e tr Htr. left.
    eapply List.Forall_impl; [|exact Htr]. intros e' [_ He']. exact He'.
  - turn_walk;
      (split; [first [left; reflexivity | right; eexists; reflexivity] | other_event]).
  - intros present w. destruct present; cbn [negb].
    + left. revert w.
      change (emits (fun e => e <> Print (skip_notice repo))
                (_fix_copier_answers ;;; update_and_publish org repo branch skip_ci)).
      turn_walk; other_event.
    + right. split; [reflexivity|]. exists []. split; [reflexivity | constructor].
Qed.

(** X9.  A turn that prints the notice about the missing answers file
    ends there, without exception: before the notice it printed its banner
    and ran at most the [git config] commands, and after it nothing
    happens but the release of the clone. *)
Theorem missing_answers_file_skips_turn (org git_user_name git_user_email : string)
  (skip_ci : bool) (git_protocol repo branch : string) (w : world X) :
  let turn := iteration org git_user_name git_user_email skip_ci git_protocol
                (repo, branch) w in
  In (Print (skip_notice repo)) (trace turn) ->
  res turn = Ok tt
  /\ exists pre,
       trace turn = (CloneEnter org repo branch git_protocol :: pre
                     ++ [Print (skip_notice repo); CloneExit])%list
       /\ Forall (before_skip repo) pre.
Proof.
  intros turn Hin. subst turn. rewrite iteration_outcome in Hin |- *.
  cbn zeta in Hin |- *.
  destruct (clone_enter org repo branch git_protocol w) as [[e|] w1];
    cbn [fst snd] in Hin |- *.
  { cbn in Hin. intuition discriminate. }
  cbn [trace res] in Hin |- *.
  destruct (in_clone_skip_shape org repo branch git_user_name git_user_email
              skip_ci w1) as [Hno|(Hr & pre & Htr & Hpre)].
  - exfalso. destruct Hin as [Hin|Hin]; [discriminate|].
    apply in_app_or in Hin as [Hin|[Hin|[]]]; [|discriminate].
    rewrite List.Forall_forall in Hno. exact (Hno _ Hin eq_refl).
  - rewrite Hr, Htr. split; [reflexivity|]. exists pre.
    rewrite <- app_assoc. split; [reflexivity | exact Hpre].
Qed.

(** *** Publishing only after the update *)

Definition update_phases (repo : string) (r : result unit) (tr : list event)
  : Prop :=
  exists pre post,
    tr = (pre ++ post)%list /\ Forall quiet pre
    /\ (post = []
        \/ (exists rc, rc <> 0%Z
              /\ post = [Run copier_update_cmd rc; Print (update_notice repo)])
        \/ exists rest, post = Run copier_update_cmd 0 :: rest).

Lemma in_clone_update_phases org repo branch name email skip_ci w :
  update_phases repo (res (in_clone org repo branch name email skip_ci w))
    (trace (in_clone org repo branch name email skip_ci w)).
Proof.
  assert (Hprefix : forall pre r tr, Forall quiet pre ->
            update_phases repo r tr -> update_phases repo r (pre ++ tr)%list).
  { intros pre r tr Hpre (pre' & post & -> & Hpre' & Hpost).
    exists (pre ++ pre')%list, post. rewrite app_assoc.
    split; [reflexivity|]. split; [apply Forall_app; split; assumption | exact Hpost]. }
  assert (Hraise : forall (e : exn) tr, Forall quiet tr ->
            update_phases repo (Raise e) tr).
  { intros e tr Htr. exists tr, []. rewrite app_nil_r. auto. }
  rewrite in_clone_split. revert w.
  apply (shape_bind quiet); [exact Hprefix | exact Hraise | |].
  { apply emits_setup; intros; repeat split; try reflexivity; discriminate. }
  intros present. destruct present; cbn [negb].
  - apply (shape_bind quiet); [exact Hprefix | exact Hraise | |].
    { apply emits_fix_copier_answers; intros; repeat split; try reflexivity;
        discriminate. }
    intros _ w. unfold update_and_publish. rewrite call_bind. cbn zeta.
    destruct (subprocess copier_update_cmd w) as [rc w1]. cbn [fst snd res trace].
    exists []. eexists. split; [reflexivity|]. split; [constructor|].
    destruct (Z.eqb_spec rc 0) as [->|Hrc]; cbn [negb].
    + right; right. eexists. reflexivity.
    + right; left. exists rc. split; [exact Hrc | reflexivity].
  - intros w. exists [Print (skip_notice repo)], []. split; [reflexivity|].
    split; [|auto]. repeat constructor; try reflexivity; discriminate.
Qed.

Lemma quiet_is_not_publishing e : quiet e -> is_publishing e = false.
Proof.
  intros (_ & Hs & Hp & Hpush & Hc & Hco & _). unfold is_publishing.
  rewrite Hs, Hp, Hpush, Hc, Hco. reflexivity.
Qed.

(** X10.  Nothing is staged wholesale, formatted, pushed, checked out or
    proposed as a pull request in a turn before the scaffold update has
    run and exited with 0: every such event comes after that run, and what
    precedes the run is the quiet prologue of the turn. *)
Theorem publishing_follows_update (org git_user_name git_user_email : string)
  (skip_ci : bool) (git_protocol repo branch : string) (w : world X)
  (e : event) :
  let tr := trace (iteration org git_user_name git_user_email skip_ci
                     git_protocol (repo, branch) w) in
  In e tr -> is_publishing e = true ->
  exists pre rest,
    tr = (pre ++ Run copier_update_cmd 0 :: rest)%list
    /\ Forall quiet pre /\ In e rest.
Proof.
  intros tr Hin Hpub. subst tr. rewrite iteration_outcome in Hin |- *.
  cbn zeta in Hin |- *.
  destruct (clone_enter org repo branch git_protocol w) as [[err|] w1];
    cbn [fst snd] in Hin |- *.
  { destruct Hin as [<-|[]]. discriminate. }
  cbn [trace] in Hin |- *.
  destruct (in_clone_update_phases org repo branch git_user_name git_user_email
              skip_ci w1) as (pre & post & Htr & Hpre & Hpost).
  rewrite Htr in Hin |- *. clear Htr.
  assert (Hquiet : forall x, In x pre -> x <> e).
  { intros x Hx ->. rewrite List.Forall_forall in Hpre.
    apply Hpre, quiet_is_not_publishing in Hx. congruence. }
  destruct Hin as [<-|Hin]; [discriminate|].
  apply in_app_or in Hin as [Hin|[<-|[]]]; [|discriminate].
  apply in_app_or in Hin as [Hin|Hin]; [exfalso; exact (Hquiet _ Hin eq_refl)|].
  destruct Hpost as [->|[(rc & Hrc & ->)|(rest & ->)]].
  - destruct Hin.
  - exfalso. destruct Hin as [<-|[<-|[]]]; discriminate.
  - destruct Hin as [<-|Hin]; [discriminate|].
    exists (CloneEnter org repo branch git_protocol :: pre), (rest ++ [CloneExit])%list.
    rewrite <- app_assoc. split; [reflexivity|]. split.
    + constructor; [|exact Hpre]. repeat split; try reflexivity; discriminate.
    + apply in_or_app. left. exact Hin.
Qed.

End TurnInvariants.

(** ** How often a turn does what *)

(** The number of events of a kind in a trace. *)
Definition count (P : event -> bool) (tr : list event) : nat :=
  length (List.filter P tr).

Section TurnBounds.
Context {X : Type} `{Collaborators X}.

(** No run of [m] holds more than [n] events of the kind [P]. *)
Definition at_most {A} (P : event -> bool) (n : nat) (m : M X A) : Prop :=
  forall w, count P (trace (m w)) <= n.

Lemma count_app P a b : count P (a ++ b) = count P a + count P b.
Proof. unfold count. rewrite List.filter_app, List.length_app. reflexivity. Qed.

Lemma count_none P tr : Forall (fun e => P e = false) tr -> count P tr = 0.
Proof.
  unfold count. induction 1 as [|e tr He _ IH]; [reflexivity|].
  cbn. rewrite He. exact IH.
Qed.

Lemma count_skip P e tr : P e = false -> count P (e :: tr) = count P tr.
Proof. intros He. unfold count. cbn. rewrite He. reflexivity. Qed.

Lemma at_most_bind {A B} P a b (m : M X A) (f : A -> M X B) :
  at_most P a m -> (forall x, at_most P b (f x)) -> at_most P (a + b) (bind m f).
Proof.
  intros Hm Hf w. rewrite bind_trace, count_app. specialize (Hm w).
  destruct (res (m w)) as [x|e].
  - specialize (Hf x (final (m w))). lia.
  - cbn. lia.
Qed.

Lemma at_most_none {A} P (m : M X A) :
  emits (fun e => P e = false) m -> at_most P 0 m.
Proof. intros Hm w. rewrite (count_none _ _ (Hm w)). lia. Qed.

Lemma at_most_weaken {A} P a b (m : M X A) :
  at_most P a m -> a <= b -> at_most P b m.
Proof. intros Hm Hab w. specialize (Hm w). lia. Qed.

Lemma at_most_call P argv : at_most P 1 (call argv).
Proof.
  intros w. unfold call. destruct (subprocess argv w) as [rc w'].
  unfold count. cbn. destruct (P (Run argv rc)); cbn; lia.
Qed.

Lemma at_most_check_call P argv : at_most P 1 (check_call argv).
Proof.
  intros w. rewrite check_call_last. cbn zeta. unfold count. cbn.
  destruct (P _); cbn; lia.
Qed.

Lemma at_most_if {A} P a b (c : bool) (m1 m2 : M X A) :
  at_most P a m1 -> at_most P b m2 -> at_most P (Nat.max a b) (if c then m1 else m2).
Proof.
  intros H1 H2 w. destruct c; [specialize (H1 w) | specialize (H2 w)]; lia.
Qed.

Lemma at_most_passes n r : at_most is_pre_commit n (pre_commit_passes n r).
Proof. intros w. apply pre_commit_passes_bound. Qed.

(** Finds a bound for a block: nothing of the kind where the walk shows
    it, one per command otherwise, sums along a sequence, the larger one
    of two branches. *)
Ltac bound_walk :=
  cbn beta;
  first
    [ solve [apply at_most_none; turn_walk; reflexivity]
    | lazymatch goal with
      | |- at_most _ _ (bind _ _) =>
          eapply at_most_bind; [bound_walk | intros ?; bound_walk]
      | |- at_most _ _ (if _ then _ else _) => eapply at_most_if; bound_walk
      | |- at_most _ _ (check_call _) => apply at_most_check_call
      | |- at_most _ _ (call _) => apply at_most_call
      | |- at_most _ _ (pre_commit_passes _ _) => apply at_most_passes
      | |- at_most _ _ (update_and_publish _ _ _ _) =>
          unfold update_and_publish; bound_walk
      | |- at_most _ _ (format_and_publish _ _ _ _ _) =>
          unfold format_and_publish; bound_walk
      | |- at_most _ _ (manual_intervention _ _ _) =>
          unfold manual_intervention; bound_walk
      | |- at_most _ _ (_make_update_dotfiles_pr _ _ _) =>
          unfold _make_update_dotfiles_pr; cbn zeta; bound_walk
      | |- at_most _ _ (ready_to_publish _) =>
          unfold ready_to_publish; bound_walk
      | |- at_most _ _ (commit_if_needed _ _) =>
          unfold commit_if_needed; bound_walk
      | |- at_most _ _ _fix_copier_answers =>
          unfold _fix_copier_answers; cbn zeta; bound_walk
      | |- at_most _ _ (in_clone _ _ _ _ _ _) => unfold in_clone; bound_walk
      end ].

Lemma at_most_iteration P n org name email skip_ci protocol repo branch :
  P (CloneEnter org repo branch protocol) = false -> P CloneExit = false ->
  at_most P n (in_clone org repo branch name email skip_ci) ->
  at_most P n (iteration org name email skip_ci protocol (repo, branch)).
Proof.
  intros Hin Hout Hblock w. rewrite iteration_outcome. cbn zeta.
  destruct (clone_enter org repo branch protocol w) as [[e|] w1]; cbn [fst snd trace].
  - rewrite count_skip by exact Hin. cbn. lia.
  - rewrite count_skip by exact Hin. rewrite count_app.
    rewrite (count_skip P CloneExit []) by exact Hout.
    specialize (Hblock w1). cbn [count List.filter length]. lia.
Qed.

(** X11.  One turn of the loop runs the scaffold update at most once and
    the formatting tool at most 3 times, checks out at most one branch,
    pushes at most once, creates at most one pull request and makes at
    most two commits. *)
Theorem turn_effects_are_bounded (org git_user_name git_user_email : string)
  (skip_ci : bool) (git_protocol repo branch : string) (w : world X) :
  let tr := trace (iteration org git_user_name git_user_email skip_ci
                     git_protocol (repo, branch) w) in
  count is_copier_update tr <= 1 /\ count is_pre_commit tr <= 3
  /\ count is_checkout tr <= 1 /\ count is_push tr <= 1
  /\ count is_pr_create tr <= 1 /\ count is_commit tr <= 2.
Proof.
  cbn zeta.
  repeat split;
    (apply at_most_iteration; [reflexivity | reflexivity |];
     eapply at_most_weaken; [bound_walk | cbn; lia]).
Qed.

End TurnBounds.

(** ** Two ways to publish, and the whole run *)

(** [git push] on the checked-out branch, without arguments. *)
Definition is_direct_push (e : event) : bool :=
  match e with
  | Run [a; b] _ => String.eqb a "git" && String.eqb b "push"
  | _ => false
  end.

(** What belongs to the pull-request branch: its checkout, its forced
    push, the query and the creation of the pull request. *)
Definition is_pr_branch_event (e : event) : bool :=
  match e with
  | Get _ _ => true
  | Run (a :: b :: c :: _) _ =>
      is_checkout e || is_pr_create e
      || (String.eqb a "git" && String.eqb b "push" && String.eqb c "-f")
  | _ => false
  end.


Definition is_config_key (key : string) (e : event) : bool :=
  match e with
  | Run (a :: b :: c :: _) _ =>
      String.eqb a "git" && String.eqb b "config" && String.eqb c key
  | _ => false
  end.

Section WholeRun.
Context {X : Type} `{Collaborators X}.

Lemma iteration_one_way org name email skip_ci protocol target :
  either (fun e => is_direct_push e = false) (fun e => is_pr_branch_event e = false)
    (iteration org name email skip_ci protocol target).
Proof.
  destruct target as [repo branch]. unfold iteration.
  apply either_except_branch_not_found.
  apply either_with_temporary_clone; try reflexivity.
  intros w. rewrite in_clone_split. revert w.
  apply either_bind; [turn_walk; split; reflexivity|].
  intros present. destruct present; cbn [negb].
  2: { apply either_left. turn_walk. reflexivity. }
  apply either_bind; [turn_walk; split; reflexivity|].
  intros _. unfold update_and_publish.
  apply either_bind; [turn_walk; split; reflexivity|].
  intros r. destruct (negb (r =? 0)%Z).
  { apply either_left. turn_walk. reflexivity. }
  apply either_bind; [turn_walk; split; reflexivity|].
  intros _. apply either_bind; [turn_walk; split; reflexivity|].
  intros _. unfold format_and_publish.
  apply either_bind; [turn_walk; split; reflexivity|].
  intros r'. destruct (negb (r' =? 0)%Z).
  - apply either_left. turn_walk; reflexivity.
  - apply either_right. turn_walk; reflexivity.
Qed.

(** X12.  A turn publishes one way or the other: if it pushes the
    checked-out branch directly, it neither checks out nor force-pushes
    the pull-request branch, nor queries or creates a pull request. *)
Theorem direct_push_excludes_pr_branch (org git_user_name git_user_email : string)
  (skip_ci : bool) (git_protocol repo branch : string) (w : world X)
  (pushed other : event) :
  let tr := trace (iteration org git_user_name git_user_email skip_ci
                     git_protocol (repo, branch) w) in
  In pushed tr -> is_direct_push pushed = true ->
  In other tr -> is_pr_branch_event other = false.
Proof.
  intros tr Hpushed Hdirect Hother. subst tr.
  destruct (iteration_one_way org git_user_name git_user_email skip_ci
              git_protocol (repo, branch) w) as [Hno|Hno];
    rewrite List.Forall_forall in Hno.
  - rewrite (Hno _ Hpushed) in Hdirect. discriminate.
  - exact (Hno _ Hother).
Qed.




Lemma emits_iteration P org name email skip_ci protocol repo branch :
  P (CloneEnter org repo branch protocol) -> P CloneExit ->
  emits P (in_clone org repo branch name email skip_ci) ->
  emits P (iteration org name email skip_ci protocol (repo, branch)).
Proof.
  intros Hin Hout Hblock w. rewrite iteration_outcome. cbn zeta.
  destruct (clone_enter org repo branch protocol w) as [[e|] w1]; cbn [fst snd trace].
  - repeat constructor. exact Hin.
  - constructor; [exact Hin|]. apply Forall_app. split; [apply Hblock|].
    repeat constructor. exact Hout.
Qed.

(** X14.  Without a user name the turn never runs [git config user.name],
    and without an e-mail address never [git config user.email]. *)
Theorem empty_identity_is_not_configured (org git_user_name git_user_email : string)
  (skip_ci : bool) (git_protocol repo branch : string) (w : world X) (e : event) :
  In e (trace (iteration org git_user_name git_user_email skip_ci git_protocol
                 (repo, branch) w)) ->
  (git_user_name = EmptyString -> is_config_key "user.name" e = false)
  /\ (git_user_email = EmptyString -> is_config_key "user.email" e = false).
Proof.
  intros Hin. split; intros ->; revert e Hin; apply List.Forall_forall;
    apply emits_iteration; try reflexivity;
    unfold in_clone; cbn [PyStr.is_empty negb]; turn_walk; reflexivity.
Qed.

End WholeRun.

(** ** Further runs in the simulated world *)

Lemma iterator_yields_tidy_names_simulated :
  res (_iterate_repos_and_branches " web, ,server-tools ," "16.0,, 17.0 " w_110)
  = Ok [("web", "16.0"); ("web", "17.0");
        ("server-tools", "16.0"); ("server-tools", "17.0")]
  /\ In ("server-tools", "17.0")
       [("web", "16.0"); ("web", "17.0");
        ("server-tools", "16.0"); ("server-tools", "17.0")]
  /\ Names.tidy "server-tools" /\ Names.tidy "17.0".
Proof.
  assert (Hres : res (_iterate_repos_and_branches " web, ,server-tools ,"
                        "16.0,, 17.0 " w_110)
                 = Ok [("web", "16.0"); ("web", "17.0");
                       ("server-tools", "16.0"); ("server-tools", "17.0")])
    by reflexivity.
  assert (Hin : In ("server-tools", "17.0")
                  [("web", "16.0"); ("web", "17.0");
                   ("server-tools", "16.0"); ("server-tools", "17.0")])
    by (cbn; auto).
  split; [exact Hres|]. split; [exact Hin|].
  pose proof (iterator_yields_tidy_names _ _ _ _ _ _ Hres Hin) as (Hr & Hb & _).
  split; assumption.
Defined.

Lemma blank_selector_simulated :
  " , " <> ":all:"
  /\ (trimmed_nonempty_split " , " = [] \/ trimmed_nonempty_split "16.0" = [])
  /\ main "OCA" " , " "16.0" bot_name bot_email false "git" w_110
     = Outcome (Ok tt) w_110 [].
Proof.
  assert (Hsel : " , " <> ":all:") by discriminate.
  assert (Hblank : trimmed_nonempty_split " , " = []
                   \/ trimmed_nonempty_split "16.0" = []) by (left; reflexivity).
  split; [exact Hsel|]. split; [exact Hblank|].
  exact (blank_selector_does_nothing "OCA" " , " "16.0" bot_name bot_email false
           "git" w_110 Hsel Hblank).
Defined.

(** The staging of the answers file fails. *)
Definition w_staging_fails : world sim :=
  World answers_null
    (ext (sim_world [(["git"; "add"; ".copier-answers.yml"], [1]%Z)] [] []
            answers_null true)).

Definition null_text : string := "repo_name: web
repo_description: null
".

Lemma answers_fix_staging_failure_simulated :
  files w_staging_fails !! answers_path = Some null_text
  /\ fix_answers_text null_text <> null_text
  /\ res (_fix_copier_answers w_staging_fails)
     = Raise (CalledProcessError 1 ["git"; "add"; ".copier-answers.yml"]).
Proof.
  assert (Hfile : files w_staging_fails !! answers_path = Some null_text)
    by reflexivity.
  assert (Hdiff : fix_answers_text null_text <> null_text)
    by (vm_compute; discriminate).
  split; [exact Hfile|]. split; [exact Hdiff|].
  refine (f_equal res
            (proj1 (answers_fix_staging_failure w_staging_fails null_text
                      Hfile Hdiff _))).
  vm_compute. discriminate.
Defined.



(** The hosting API answers with an error status. *)
Definition w_api_down : world sim :=
  World ∅ (Sim [] (Ok {| status_code := 503; json := [] |}) [] [] ∅ true).

Lemma failed_query_simulated :
  In (Get (pulls_url "OCA" "web" "16.0") (Ok {| status_code := 503; json := [] |}))
    (trace (_make_update_dotfiles_pr "OCA" "web" "16.0" w_api_down))
  /\ query_failed (Ok {| status_code := 503; json := [] |})
  /\ res (_make_update_dotfiles_pr "OCA" "web" "16.0" w_api_down)
     = Raise (HTTPError 503).
Proof.
  assert (Hin : In (Get (pulls_url "OCA" "web" "16.0")
                      (Ok {| status_code := 503; json := [] |}))
    (trace (_make_update_dotfiles_pr "OCA" "web" "16.0" w_api_down))) by among.
  assert (Hfailed : query_failed (Ok {| status_code := 503; json := [] |}))
    by (cbn; lia).
  split; [exact Hin|]. split; [exact Hfailed|].
  exact (proj1 (failed_query_creates_no_pr "OCA" "web" "16.0" w_api_down _ _
                  Hin Hfailed)).
Defined.

(** The clone holds no answers file. *)
Definition w_no_answers : world sim := sim_world [] [] [] ∅ true.

Lemma missing_answers_file_simulated :
  In (Print (skip_notice "web"))
    (trace (iteration "OCA" bot_name bot_email false "git" ("web", "16.0")
              w_no_answers))
  /\ res (iteration "OCA" bot_name bot_email false "git" ("web", "16.0")
            w_no_answers) = Ok tt.
Proof.
  assert (Hin : In (Print (skip_notice "web"))
    (trace (iteration "OCA" bot_name bot_email false "git" ("web", "16.0")
              w_no_answers))) by among.
  split; [exact Hin|].
  exact (proj1 (missing_answers_file_skips_turn "OCA" bot_name bot_email false
                  "git" "web" "16.0" w_no_answers Hin)).
Defined.

Lemma publishing_follows_update_simulated :
  In (Run ["git"; "push"] 0)
    (trace (iteration "OCA" bot_name bot_email false "git" ("web", "16.0") w_110))
  /\ is_publishing (Run ["git"; "push"] 0) = true
  /\ exists pre rest,
       trace (iteration "OCA" bot_name bot_email false "git" ("web", "16.0") w_110)
       = (pre ++ Run copier_update_cmd 0 :: rest)%list
       /\ Forall quiet pre /\ In (Run ["git"; "push"] 0) rest.
Proof.
  assert (Hin : In (Run ["git"; "push"] 0)
    (trace (iteration "OCA" bot_name bot_email false "git" ("web", "16.0") w_110)))
    by among.
  assert (Hpub : is_publishing (Run ["git"; "push"] 0) = true) by reflexivity.
  split; [exact Hin|]. split; [exact Hpub|].
  exact (publishing_follows_update "OCA" bot_name bot_email false "git" "web"
           "16.0" w_110 _ Hin Hpub).
Defined.

Lemma direct_push_simulated :
  In (Run ["git"; "push"] 0)
    (trace (iteration "OCA" bot_name bot_email false "git" ("web", "16.0") w_110))
  /\ is_direct_push (Run ["git"; "push"] 0) = true
  /\ In (Run ["git"; "add"; "."] 0)
       (trace (iteration "OCA" bot_name bot_email false "git" ("web", "16.0") w_110))
  /\ is_pr_branch_event (Run ["git"; "add"; "."] 0) = false.
Proof.
  assert (Hpushed : In (Run ["git"; "push"] 0)
    (trace (iteration "OCA" bot_name bot_email false "git" ("web", "16.0") w_110)))
    by among.
  assert (Hdirect : is_direct_push (Run ["git"; "push"] 0) = true) by reflexivity.
  assert (Hother : In (Run ["git"; "add"; "."] 0)
    (trace (iteration "OCA" bot_name bot_email false "git" ("web", "16.0") w_110)))
    by among.
  split; [exact Hpushed|]. split; [exact Hdirect|]. split; [exact Hother|].
  exact (direct_push_excludes_pr_branch "OCA" bot_name bot_email false "git"
           "web" "16.0" w_110 _ _ Hpushed Hdirect Hother).
Defined.

Lemma empty_identity_simulated :
  In (Run ["git"; "config"; "user.email"; bot_email] 0)
    (trace (iteration "OCA" EmptyString bot_email false "git" ("web", "16.0")
              w_no_answers))
  /\ is_config_key "user.name" (Run ["git"; "config"; "user.email"; bot_email] 0)
     = false.
Proof.
  assert (Hin : In (Run ["git"; "config"; "user.email"; bot_email] 0)
    (trace (iteration "OCA" EmptyString bot_email false "git" ("web", "16.0")
              w_no_answers))) by among.
  split; [exact Hin|].
  exact (proj1 (empty_identity_is_not_configured "OCA" EmptyString bot_email
                  false "git" "web" "16.0" w_no_answers _ Hin) eq_refl).
Defined.

(** The formatter fails three times in a run with [--skip-ci]: the turn
    takes the manual-intervention path and commits without the marker. *)
Lemma pr_branch_commit_simulated :
  ((subprocess ["git"; "checkout"; "-B"; _make_update_dotfiles_branch "16.0"]
      w_111).1 = 0%Z
   /\ (subprocess ["git"; "add"; "."]
         (subprocess ["git"; "checkout"; "-B"; _make_update_dotfiles_branch "16.0"]
            w_111).2).1 = 0%Z
   /\ exists rc rest,
        trace (manual_intervention "OCA" "web" "16.0" w_111)
        = Print "$$$$$$$$$$ need manual intervention in web"
          :: Run ["git"; "checkout"; "-B"; "16.0-ocabot-update-dotfiles"] 0
          :: Run ["git"; "add"; "."] 0
          :: Run ["git"; "commit"; "-m"; "[IMP] update dotfiles"] rc
          :: rest)
  /\ In (Run ["git"; "commit"; "-m"; "[IMP] update dotfiles"] 0)
       (trace (iteration "OCA" bot_name bot_email true "git" ("web", "16.0") w_111))
  /\ forall e msg,
       In e (trace (iteration "OCA" bot_name bot_email true "git" ("web", "16.0")
                      w_111)) ->
       commit_message e = Some msg -> ci_skip_marked msg = false.
Proof.
  assert (Hchecked :
    (subprocess ["git"; "checkout"; "-B"; _make_update_dotfiles_branch "16.0"]
       w_111).1 = 0%Z) by reflexivity.
  assert (Hstaged :
    (subprocess ["git"; "add"; "."]
       (subprocess ["git"; "checkout"; "-B"; _make_update_dotfiles_branch "16.0"]
          w_111).2).1 = 0%Z) by reflexivity.
  assert (Hcheckout :
    In (Run ["git"; "checkout"; "-B"; "16.0-ocabot-update-dotfiles"] 0)
      (trace (iteration "OCA" bot_name bot_email true "git" ("web", "16.0") w_111)))
    by among.
  split; [|split].
  - split; [exact Hchecked|]. split; [exact Hstaged|].
    exact (proj1 (proj2 (proj2 (pr_branch_commit_never_skips_ci "OCA" "web" "16.0"
                                  bot_name bot_email true "git" w_111)))
             Hchecked Hstaged).
  - among.
  - intros e msg He Hmsg.
    destruct (ci_skip_marked msg) eqn:Hmark; [exfalso | reflexivity].
    destruct (proj1 (proj2 (pr_branch_commit_never_skips_ci "OCA" "web" "16.0"
                              bot_name bot_email true "git" w_111))
                e msg He Hmsg Hmark) as (_ & _ & Hnone).
    specialize (Hnone _ Hcheckout). discriminate Hnone.
Defined.

